(** * The easy-install fastener example of cqparts

    A shallow embedding of [docs-sphinx/_static/iframes/easy-install/generate.py]:
    the wood screw, the anchor, the fastener that joins two planks with them,
    the transient catalogue and the export / display switch at the end of the
    script.

    Python's [float] is IEEE 754 binary64, which is what Rocq's primitive
    [float] is; arithmetic on parameters is therefore written with the
    primitive operations, and decimal literals denote the nearest double,
    as they do in Python.  What the CAD kernel and the framework compute
    (solids, sub-parts, coordinate arithmetic) is kept uninterpreted: a solid
    is the tree of the kernel calls that built it. *)

From Stdlib Require Import ZArith List Lia PrimFloat Uint63.
From stdpp Require Import gmap strings list.

#[local] Set Warnings "-inexact-float".

(** ** Exceptions and results *)

Inductive exn :=
| ParameterError
| ValueError
| IndexError
| FileNotFoundError.

Inductive result (A : Type) :=
| Ok (a : A)
| Raise (e : exn).
Arguments Ok {A} a.
Arguments Raise {A} e.

#[export] Instance result_ret : MRet result := @Ok.
#[export] Instance result_bind : MBind result :=
  fun A B f m => match m with Ok a => f a | Raise e => Raise e end.

Definition is_ok {A} (r : result A) : bool :=
  match r with Ok _ => true | Raise _ => false end.

(** A method of an object of class [S]: it gets [self], returns a value and
    leaves [self] in some state.  Attribute reads are [attr]; an assignment
    to an attribute would be [assign]. *)
Definition Method (S A : Type) : Type := S -> A * S.

#[export] Instance method_ret S : MRet (Method S) := fun A a self => (a, self).
#[export] Instance method_bind S : MBind (Method S) :=
  fun A B f m self => let (a, self') := m self in f a self'.

Definition attr {S A} (field : S -> A) : Method S A := fun self => (field self, self).
Definition assign {S} (update : S -> S) : Method S unit := fun self => (tt, update self).
Definition call {S A} (m : Method S A) (self : S) : A := fst (m self).

(** A method is read-only when it hands [self] back as it got it. *)
Definition read_only {S A} (m : Method S A) : Prop := forall self, snd (m self) = self.

(** ** Numbers *)

(** [float(i)] for a Python int (exact below 2^53, which covers every int
    this script converts). *)
Definition of_int (z : Z) : float :=
  if (z <? 0)%Z then (- of_uint63 (Uint63.of_Z (- z)))%float
  else of_uint63 (Uint63.of_Z z).

(** [math.pi] *)
Definition pi : float := 0x1.921fb54442d18p+1%float.

(** [range(a, b)] *)
Definition range (a b : Z) : list Z := seqZ a (b - a).

(** ** Geometry of the framework *)

(** [cadquery.Vector]: difference and length ([abs]). *)
Record Vector := vec { vx : float; vy : float; vz : float }.

Definition vsub (a b : Vector) : Vector :=
  vec (vx a - vx b) (vy a - vy b) (vz a - vz b)%float.

Definition vabs (v : Vector) : float :=
  PrimFloat.sqrt (vx v * vx v + vy v * vy v + vz v * vz v)%float.

(** [cqparts.utils.CoordSystem(origin, xDir, normal)], with the constructor's
    defaults. *)
Record CoordSystem := { origin : Vector; xDir : Vector; normal : Vector }.

Definition CoordSystem_at (o : Vector) : CoordSystem :=
  {| origin := o; xDir := vec 1 0 0; normal := vec 0 0 1 |}.

(** [cqparts.constraint.Mate(self, coords)]: the owner is the object whose
    property built the mate. *)
Record Mate := { local_coords : CoordSystem }.

(** A sub-part parameter ([HeadType], [DriveType], [ThreadType]): the name
    of a registered class and its parameters. *)
Record SubPart := { sp_name : string; sp_params : list (string * float) }.

(** [cadquery.Workplane] objects, as the chain of calls that built them.
    The last four constructors are results of framework code that the file
    calls: the inherited [MaleFastenerPart.make] (a function of the parameters
    that [MaleFastenerPart] declares), a thread's pilot-hole cutter, a
    drive applied to a solid, and a solid moved by a coordinate system
    ([coords + solid]). *)
Inductive Solid :=
| Workplane (plane : string) (origin : Vector)
| circle (w : Solid) (radius : float)
| extrude (w : Solid) (distance : float)
| cut (w tool : Solid)
| union (w other : Solid)
| translate (w : Solid) (v : Vector)
| rotate (w : Solid) (p0 p1 : Vector) (angle : float)
| moveTo (w : Solid) (x y : float)
| lineTo (w : Solid) (x y : float)
| threePointArc (w : Solid) (p1 p2 : float * float)
| close (w : Solid)
| spline (w : Solid) (points : list (float * float))
| rect (w : Solid) (xLen yLen : float) (centered : bool)
| box (w : Solid) (length width height : float)
| MaleFastenerPart_make (head drive thread : SubPart) (neck_diam neck_length length : float)
| make_pilothole_cutter (thread : SubPart)
| drive_apply (drive : SubPart) (w : Solid)
| placed (coords : CoordSystem) (w : Solid).

Definition XY (o : Vector) : Solid := Workplane "XY" o.
Definition XY0 : Solid := XY (vec 0 0 0).

(** ** Parameter types of [cqparts.params] *)

(** Modelled from the spec: [cqparts.params.PositiveFloat] is not in the
    file; a parameter set is "validated only by range/type constraints
    declared alongside each field".  The type refuses a value below zero
    with a [ParameterError]; zero itself passes. *)
Definition PositiveFloat (value : float) : result float :=
  if (value <? 0)%float then Raise ParameterError else Ok value.

(** Modelled from the spec: [cqparts.params.FloatRange(min, max, default)]
    refuses a value below [min] or above [max]. *)
Definition FloatRange (lo hi : float) (value : float) : result float :=
  if (value <? lo)%float then Raise ParameterError
  else if (hi <? value)%float then Raise ParameterError
  else Ok value.

(** Modelled from the spec: [cqparts.params.IntRange(min, max, default)]
    refuses a value below [min] or above [max]. *)
Definition IntRange (lo hi : Z) (value : Z) : result Z :=
  if (value <? lo)%Z then Raise ParameterError
  else if (hi <? value)%Z then Raise ParameterError
  else Ok value.

(** A keyword argument that was given is cast by its parameter type; one
    that was not given takes the declared default. *)
Definition cast {A} (type : A -> result A) (default : A) (given : option A) : result A :=
  match given with
  | Some v => type v
  | None => Ok default
  end.

(** ** Wood screw *)

Module WoodScrew.

Record t := {
  head : SubPart;
  drive : SubPart;
  thread : SubPart;
  neck_diam : float;
  neck_length : float;
  length : float;
  neck_exposed : float;
  bore_diam : float;
}.

Definition default_head : SubPart :=
  {| sp_name := "cheese"; sp_params := [("diameter", 4); ("height", 2)]%float |}.
Definition default_drive : SubPart :=
  {| sp_name := "phillips";
     sp_params := [("diameter", 3.5); ("depth", 2.5); ("width", 0.5)]%float |}.
Definition default_thread : SubPart :=
  {| sp_name := "triangular";
     sp_params := [("diameter", 5); ("diameter_core", 4.3); ("pitch", 2);
                   ("angle", 30)]%float |}.

(** The scalar keyword arguments of the constructor. *)
Record kwargs := {
  kw_neck_diam : option float;
  kw_neck_length : option float;
  kw_length : option float;
  kw_neck_exposed : option float;
  kw_bore_diam : option float;
}.

Definition no_kwargs : kwargs :=
  {| kw_neck_diam := None; kw_neck_length := None; kw_length := None;
     kw_neck_exposed := None; kw_bore_diam := None |}.

(** The declared defaults. *)
Definition defaults : t :=
  {| head := default_head; drive := default_drive; thread := default_thread;
     neck_diam := 2; neck_length := 40; length := 50;
     neck_exposed := 2; bore_diam := 6 |}.

(** Modelled from the spec: the inherited
    [MaleFastenerPart.initialize_parameters] (cqparts_fasteners.male) is
    not in the file.  It refuses a screw whose length does not exceed its
    neck length with a [ValueError].  It also gives the thread object its
    length, which is no parameter of the screw and is not held in [t]. *)
Definition MaleFastenerPart_initialize_parameters (self : t) : result t :=
  if (length self <=? neck_length self)%float then Raise ValueError else Ok self.

(** [initialize_parameters] only calls the inherited one. *)
Definition initialize_parameters (self : t) : result t :=
  MaleFastenerPart_initialize_parameters self.

(** The constructor, called with keyword arguments: it casts the
    arguments that were given and then calls [initialize_parameters]. *)
Definition new (kw : kwargs) : result t :=
  nd ← cast PositiveFloat (neck_diam defaults) (kw_neck_diam kw);
  nl ← cast PositiveFloat (neck_length defaults) (kw_neck_length kw);
  l ← cast PositiveFloat (length defaults) (kw_length kw);
  ne ← cast PositiveFloat (neck_exposed defaults) (kw_neck_exposed kw);
  bd ← cast PositiveFloat (bore_diam defaults) (kw_bore_diam kw);
  initialize_parameters
    {| head := head defaults; drive := drive defaults; thread := thread defaults;
       neck_diam := nd; neck_length := nl; length := l;
       neck_exposed := ne; bore_diam := bd |}.

(** [for angle in [i * (360 / 3) for i in range(3)]] *)
Definition slice_angles : list float :=
  (fun i => (of_int i * (360 / 3))%float) <$> range 0 3.

Definition make : Method t Solid :=
  h ← attr head; d ← attr drive; th ← attr thread;
  nd ← attr neck_diam; nl ← attr neck_length; l ← attr length;
  ne ← attr neck_exposed; bd ← attr bore_diam;
  let screw := MaleFastenerPart_make h d th nd nl l in
  let bore :=
    extrude (circle (XY (vec 0 0 (- nl))) (bd / 2)) (nl - ne)%float in
  let bore :=
    fold_left
      (fun bore angle =>
         let slice_obj :=
           rotate
             (extrude (circle (XY (vec (bd / 2) 0 (- (ne + 2)))) (bd / 3))
                      (- (nl - ne - 4)))
             (vec 0 0 0) (vec 0 0 1) angle in
         cut bore slice_obj)%float
      slice_angles bore in
  mret (union screw bore).

Definition make_cutter : Method t Solid :=
  bd ← attr bore_diam; nl ← attr neck_length;
  let cutter := extrude (circle XY0 (bd / 2)) (- nl)%float in
  th ← attr thread; l ← attr length;
  mret (union cutter (translate (make_pilothole_cutter th) (vec 0 0 (- l)))).

Definition make_simple : Method t Solid :=
  make_cutter.

Definition mate_threadstart : Method t Mate :=
  nl ← attr neck_length;
  mret {| local_coords := CoordSystem_at (vec 0 0 (- nl)) |}.

End WoodScrew.

(** ** Anchor *)

Module Anchor.

Record t := {
  drive : option SubPart;
  diameter : float;
  height : float;
  neck_diameter : float;
  head_diameter : float;
  spline_point_count : Z;
  ratio_start : float;
  ratio_end : float;
}.

Definition default_drive : SubPart :=
  {| sp_name := "cross";
     sp_params := [("diameter", 5); ("width", 1); ("depth", 2.5)]%float |}.

(** The scalar keyword arguments of the constructor. *)
Record kwargs := {
  kw_diameter : option float;
  kw_height : option float;
  kw_neck_diameter : option float;
  kw_head_diameter : option float;
  kw_spline_point_count : option Z;
  kw_ratio_start : option float;
  kw_ratio_end : option float;
}.

Definition no_kwargs : kwargs :=
  {| kw_diameter := None; kw_height := None; kw_neck_diameter := None;
     kw_head_diameter := None; kw_spline_point_count := None;
     kw_ratio_start := None; kw_ratio_end := None |}.

(** The declared defaults. *)
Definition defaults : t :=
  {| drive := Some default_drive; diameter := 10; height := 5;
     neck_diameter := 2; head_diameter := 4; spline_point_count := 10;
     ratio_start := 0.99; ratio_end := 0.7 |}.

Definition new (kw : kwargs) : result t :=
  d ← cast PositiveFloat (diameter defaults) (kw_diameter kw);
  h ← cast PositiveFloat (height defaults) (kw_height kw);
  nd ← cast PositiveFloat (neck_diameter defaults) (kw_neck_diameter kw);
  hd ← cast PositiveFloat (head_diameter defaults) (kw_head_diameter kw);
  n ← cast (IntRange 4 200) (spline_point_count defaults) (kw_spline_point_count kw);
  rs ← cast (FloatRange 0.5 0.99) (ratio_start defaults) (kw_ratio_start kw);
  re ← cast (FloatRange 0.01 0.8) (ratio_end defaults) (kw_ratio_end kw);
  mret {| drive := drive defaults; diameter := d; height := h;
          neck_diameter := nd; head_diameter := hd; spline_point_count := n;
          ratio_start := rs; ratio_end := re |}.

Definition wedge_radii : Method t (float * float) :=
  d ← attr diameter; rs ← attr ratio_start; re ← attr ratio_end;
  mret ((d / 2) * rs, (d / 2) * re)%float.

(** The angle and the radius of the [i]-th spline point, for
    [spline_point_count = n]. *)
Definition spline_angle (n i : Z) : float :=
  (of_int i * (pi / of_int n))%float.

Definition spline_radius (start_r end_r : float) (n i : Z) : float :=
  (start_r + ((end_r - start_r) * (of_int i / of_int n)))%float.

Section Trigonometry.

(** [math.cos] and [math.sin], the C library's. *)
Variables cos sin : float -> float.

Definition angles_radius (start_r end_r : float) (n : Z) : list (float * float) :=
  (fun i => (spline_angle n i, spline_radius start_r end_r n i))
    <$> range 1 (n + 1).

Definition spline_points (start_r end_r : float) (n : Z) : list (float * float) :=
  (fun '(a, r) => (cos a * r, - sin a * r)%float)
    <$> angles_radius start_r end_r n.

Definition make : Method t Solid :=
  d ← attr diameter; h ← attr height;
  let obj := extrude (circle XY0 (d / 2)) (- h)%float in
  (* neck slot *)
  nd ← attr neck_diameter;
  let obj :=
    cut obj
      (extrude
         (close
            (threePointArc
               (lineTo (moveTo (XY (vec 0 0 (- ((nd + h) / 2)))) 0 0) (d / 2) 0)
               (0, - d / 2) (- d / 2, 0)))
         nd)%float in
  (* head slot *)
  '(start_r, end_r) ← wedge_radii;
  n ← attr spline_point_count;
  let points := spline_points start_r end_r n in
  hd ← attr head_diameter;
  let obj :=
    cut obj
      (extrude
         (close (spline (moveTo (XY (vec 0 0 (- ((hd + h) / 2)))) start_r 0) points))
         hd)%float in
  (* access port *)
  let obj :=
    cut obj
      (extrude (rect (XY (vec 0 0 (- (h - hd) / 2))) (d / 2) (d / 2) false) (- h))%float in
  (* screw drive *)
  dr ← attr drive;
  let obj := match dr with Some dr => drive_apply dr obj | None => obj end in
  mret obj.

End Trigonometry.

Definition make_simple : Method t Solid :=
  d ← attr diameter; h ← attr height;
  mret (extrude (circle XY0 (d / 2)) (- h))%float.

Definition make_cutter : Method t Solid :=
  h ← attr height; d ← attr diameter;
  mret (extrude (circle (XY (vec 0 0 (- h))) (d / 2)) (h + 1000))%float.

Definition mate_screwhead : Method t Mate :=
  '(start_r, end_r) ← wedge_radii;
  h ← attr height;
  mret {| local_coords :=
            {| origin := vec 0 (- ((start_r + end_r) / 2)) (- h / 2);
               xDir := vec 1 0 0;
               normal := vec 0 1 0 |} |}%float.

Definition mate_center : Method t Mate :=
  h ← attr height;
  mret {| local_coords := CoordSystem_at (vec 0 0 (- h / 2)) |}%float.

Definition mate_base : Method t Mate :=
  h ← attr height;
  mret {| local_coords := CoordSystem_at (vec 0 0 (- h)) |}%float.

End Anchor.

(** ** Screw and anchor together *)

Module _Together.

(** The assembly declares no parameter. *)
Record t := {}.

Definition new : result t := Ok Build_t.

Record components := { screw : WoodScrew.t; anchor : Anchor.t }.

Definition make_components : Method t (result components) :=
  mret (s ← WoodScrew.new
              {| WoodScrew.kw_neck_diam := None;
                 WoodScrew.kw_neck_length := None;
                 WoodScrew.kw_length := None;
                 WoodScrew.kw_neck_exposed := Some 5%float;
                 WoodScrew.kw_bore_diam := None |};
        a ← Anchor.new
              {| Anchor.kw_diameter := None;
                 Anchor.kw_height := Some 7%float;
                 Anchor.kw_neck_diameter := None;
                 Anchor.kw_head_diameter := None;
                 Anchor.kw_spline_point_count := None;
                 Anchor.kw_ratio_start := None;
                 Anchor.kw_ratio_end := None |};
        mret {| screw := s; anchor := a |}).

End _Together.

(** ** Fastener *)

(** A part as the fastener sees it: an object on the heap with the solid
    in its own coordinates and its place in the world.  Effects and
    components refer to parts by address, so two effects can share one. *)
Record PartObj := { local_obj : Solid; world_coords : CoordSystem }.

(** An effect of the [VectorEvaluator]: a segment of the evaluation vector
    inside one part. *)
Record Effect := { start_point : Vector; end_point : Vector; part : nat }.

(** [l[i]], also for a negative [i]. *)
Definition getitem {A} (l : list A) (i : Z) : result A :=
  let n := Z.of_nat (length l) in
  let k := if (i <? 0)%Z then (i + n)%Z else i in
  if (k <? 0)%Z then Raise IndexError
  else match l !! Z.to_nat k with
       | Some x => Ok x
       | None => Raise IndexError
       end.

(** [l[:-1]] *)
Definition all_but_last {A} (l : list A) : list A := take (length l - 1) l.

Module EasyInstallFastener.

Module Selector.

Record components := { anchor : Anchor.t; screw : WoodScrew.t }.

Definition anchor_slack (anchor : Anchor.t) : float :=
  let v_rel_center := origin (local_coords (call Anchor.mate_center anchor)) in
  let v_rel_screwhead := origin (local_coords (call Anchor.mate_base anchor)) in
  vabs (vsub v_rel_screwhead v_rel_center).

(** [self.evaluator.eval] is the argument. *)
Definition get_components (eval : list Effect) : result components :=
  anchor ← Anchor.new Anchor.no_kwargs;
  let anchor_slack := anchor_slack anchor in
  e_last ← getitem eval (-1);
  e_first ← getitem eval 0;
  let effect_length := vabs (vsub (start_point e_last) (start_point e_first)) in
  let neck_length := (effect_length - anchor_slack)%float in
  e_last ← getitem eval (-1);
  let thread_maxlength := vabs (vsub (end_point e_last) (start_point e_last)) in
  let thread_length := (thread_maxlength * 0.8)%float in
  screw ← WoodScrew.new
            {| WoodScrew.kw_neck_diam := None;
               WoodScrew.kw_neck_length := Some neck_length;
               WoodScrew.kw_length := Some (neck_length + thread_length)%float;
               WoodScrew.kw_neck_exposed := None;
               WoodScrew.kw_bore_diam := None |};
  mret {| anchor := anchor; screw := screw |}.

End Selector.

Module Applicator.

Section Alterations.

(** [a - b] on coordinate systems is the framework's. *)
Variable coords_sub : CoordSystem -> CoordSystem -> CoordSystem.

(** The placed components of the selector. *)
Variables (screw : WoodScrew.t) (screw_world_coords : CoordSystem).
Variables (anchor : Anchor.t) (anchor_world_coords : CoordSystem).

(** [part.local_obj = part.local_obj.cut(coordsys + cutter)], with
    [coordsys = world_coords - part.world_coords]. *)
Definition cut_part (world_coords0 : CoordSystem) (cutter : Solid) (p : PartObj) : PartObj :=
  let coordsys := coords_sub world_coords0 (world_coords p) in
  {| local_obj := cut (local_obj p) (placed coordsys cutter);
     world_coords := world_coords p |}.

Definition apply_alterations (eval : list Effect) (heap : gmap nat PartObj)
  : gmap nat PartObj :=
  let screw_cutter := call WoodScrew.make_cutter screw in
  let anchor_cutter := call Anchor.make_cutter anchor in
  (* screw : cut from all effected parts *)
  let heap :=
    foldl (fun heap effect =>
             alter (cut_part screw_world_coords screw_cutter) (part effect) heap)
          heap eval in
  (* anchor : all but last piece *)
  foldl (fun heap effect =>
           alter (cut_part anchor_world_coords anchor_cutter) (part effect) heap)
        heap (all_but_last eval).

End Alterations.

End Applicator.

End EasyInstallFastener.

(** ** Joined planks *)

Module WoodPanel.

Record t := { thickness : float; width : float; length : float }.

Record kwargs := {
  kw_thickness : option float;
  kw_width : option float;
  kw_length : option float;
}.

(** The declared defaults. *)
Definition defaults : t := {| thickness := 15; width := 100; length := 100 |}.

Definition new (kw : kwargs) : result t :=
  th ← cast PositiveFloat (thickness defaults) (kw_thickness kw);
  w ← cast PositiveFloat (width defaults) (kw_width kw);
  l ← cast PositiveFloat (length defaults) (kw_length kw);
  mret {| thickness := th; width := w; length := l |}.

Definition make : Method t Solid :=
  l ← attr length; w ← attr width; th ← attr thickness;
  mret (box XY0 l w th).

Definition mate_end : Method t Mate :=
  l ← attr length;
  mret {| local_coords :=
            {| origin := vec (l / 2) 0 0;
               xDir := vec 0 0 (-1);
               normal := vec (-1) 0 0 |} |}%float.

Definition get_mate_edge (thickness0 : float) : Method t Mate :=
  l ← attr length; th ← attr thickness;
  mret {| local_coords :=
            CoordSystem_at (vec ((l / 2) - (thickness0 / 2)) 0 (th / 2)) |}%float.

End WoodPanel.

Module ConnectedPlanks.

(** The assembly declares no parameter; the script assigns its
    [world_coords]. *)
Record t := { world_coords : option CoordSystem }.

Definition new : result t := Ok {| world_coords := None |}.

Record components := { p1 : WoodPanel.t; p2 : WoodPanel.t; fastener_parts : list WoodPanel.t }.

Definition make_components : Method t (result components) :=
  let panel :=
    WoodPanel.new {| WoodPanel.kw_thickness := None;
                     WoodPanel.kw_width := Some 30%float;
                     WoodPanel.kw_length := Some 40%float |} in
  mret (p1 ← panel; p2 ← panel;
        mret {| p1 := p1; p2 := p2; fastener_parts := [p1; p2] |}).

End ConnectedPlanks.

(** ** The script: catalogue, then export or display *)

#[export] Instance result_fmap : FMap result :=
  fun A B f m => match m with Ok a => Ok (f a) | Raise e => Raise e end.

(** What the script puts in the catalogue, exports or displays. *)
Inductive Model :=
| MWoodScrew (s : WoodScrew.t)
| MAnchor (a : Anchor.t)
| MTogether (t : _Together.t)
| MConnectedPlanks (cp : ConnectedPlanks.t).

Inductive criterion := CStr (s : string) | CInt (z : Z).

(** A catalogue entry. *)
Record Entry := { id : string; criteria : list (string * criterion); obj : Model }.

Inductive File :=
| CatalogueFile (items : list Entry)
| GltfFile (exported : Model).

(** What the script can change outside itself: the files on disk and what
    the GUI host was asked to display. *)
Record World := { files : gmap string File; displayed : list Model }.

(** Modelled from the spec: [cqparts.catalogue.JSONCatalogue] is not in the
    file; the catalogue is "one temporary catalogue file", a store of
    "(id, criteria mapping, serialized part)" entries.  Opening it creates
    the file when there is none. *)
Definition JSONCatalogue (filename : string) (w : World) : result World :=
  match files w !! filename with
  | Some _ => Ok w
  | None => Ok {| files := <[filename := CatalogueFile []]> (files w);
                  displayed := displayed w |}
  end.

(** Modelled from the spec: [catalogue.add(id, criteria, obj)] stores one
    more entry in the catalogue's file; the catalogue is keyed by id, and
    an id that it already holds is refused with a [ValueError]. *)
Definition catalogue_add (filename : string) (e : Entry) (w : World) : result World :=
  match files w !! filename with
  | Some (CatalogueFile items) =>
      if decide (id e ∈ id <$> items) then Raise ValueError
      else Ok {| files := <[filename := CatalogueFile (items ++ [e])]> (files w);
                 displayed := displayed w |}
  | _ => Raise FileNotFoundError
  end.

(** [os.unlink] *)
Definition unlink (filename : string) (w : World) : result World :=
  match files w !! filename with
  | Some _ => Ok {| files := delete filename (files w); displayed := displayed w |}
  | None => Raise FileNotFoundError
  end.

(** [obj.exporter('gltf')(filename)] *)
Definition export_gltf (m : Model) (filename : string) (w : World) : result World :=
  Ok {| files := <[filename := GltfFile m]> (files w); displayed := displayed w |}.

(** [display(obj)] *)
Definition display (m : Model) (w : World) : result World :=
  Ok {| files := files w; displayed := displayed w ++ [m] |}.

(** A row of the [screws] and [anchors] tables. *)
Record Row (kwargs : Type) := {
  row_id : string;
  obj_params : kwargs;
  row_criteria : list (string * criterion);
}.
Arguments row_id {kwargs} r.
Arguments obj_params {kwargs} r.
Arguments row_criteria {kwargs} r.

Definition screws : list (Row WoodScrew.kwargs) :=
  [ {| row_id := "screw_30";
       obj_params :=
         {| WoodScrew.kw_neck_diam := None;
            WoodScrew.kw_neck_length := Some 30%float;
            WoodScrew.kw_length := Some 40%float;
            WoodScrew.kw_neck_exposed := Some 5%float;
            WoodScrew.kw_bore_diam := None |};
       row_criteria :=
         [("type", CStr "screw"); ("thread_length", CInt 10);
          ("compatible_anchor", CStr "anchor_10")] |};
    {| row_id := "screw_50";
       obj_params :=
         {| WoodScrew.kw_neck_diam := None;
            WoodScrew.kw_neck_length := Some 50%float;
            WoodScrew.kw_length := Some 65%float;
            WoodScrew.kw_neck_exposed := Some 6%float;
            WoodScrew.kw_bore_diam := None |};
       row_criteria :=
         [("type", CStr "screw"); ("thread_length", CInt 15);
          ("compatible_anchor", CStr "anchor_15")] |} ].

Definition anchor_kwargs (diameter height : float) : Anchor.kwargs :=
  {| Anchor.kw_diameter := Some diameter;
     Anchor.kw_height := Some height;
     Anchor.kw_neck_diameter := None;
     Anchor.kw_head_diameter := None;
     Anchor.kw_spline_point_count := None;
     Anchor.kw_ratio_start := None;
     Anchor.kw_ratio_end := None |}.

Definition anchors : list (Row Anchor.kwargs) :=
  [ {| row_id := "anchor_10"; obj_params := anchor_kwargs 10 7;
       row_criteria := [("type", CStr "anchor")] |};
    {| row_id := "anchor_15"; obj_params := anchor_kwargs 15 10;
       row_criteria := [("type", CStr "anchor")] |} ].

(** *** Statements and the worlds they leave

    A Python exception does not undo what the script did before it was
    raised, and what the script does in between is part of its behaviour.
    The run of a statement from a world is therefore the list of the worlds
    that its calls left, one after the other, and the exception that ended
    it, if one did. *)
Definition History : Type := list World * option exn.
Definition Steps : Type := World -> History.

(** One call that changes the world, or raises and leaves it as it is. *)
Definition step (op : World -> result World) : Steps :=
  fun w => match op w with
           | Ok w' => ([w'], None)
           | Raise e => ([], Some e)
           end.

(** The world after the worlds [ws] that followed [w]. *)
Definition last_world (w : World) (ws : list World) : World := default w (last ws).

(** [first; second]: the second statement runs in the world that the
    first one left, and only when no exception was raised. *)
Definition then_ (first second : Steps) : Steps :=
  fun w => match first w with
           | (ws, None) =>
               let (ws', r) := second (last_world w ws) in (ws ++ ws', r)
           | (ws, Some e) => (ws, Some e)
           end.

(** How a run ends: in its last world, or with its exception. *)
Definition outcome (w : World) (h : History) : result World :=
  match h with
  | (ws, None) => Ok (last_world w ws)
  | (_, Some e) => Raise e
  end.

(** [for row in rows: obj = Class(..row['obj_params']); catalogue.add(...)] *)
Fixpoint add_rows {kwargs} (new : kwargs -> result Model) (filename : string)
    (rows : list (Row kwargs)) : Steps :=
  match rows with
  | [] => fun w => ([], None)
  | row :: rows =>
      fun w =>
        match new (obj_params row) with
        | Raise e => ([], Some e)
        | Ok o =>
            then_
              (step (catalogue_add filename
                       {| id := row_id row; criteria := row_criteria row; obj := o |}))
              (add_rows new filename rows) w
        end
  end.

Definition build_catalogue (screws : list (Row WoodScrew.kwargs))
    (anchors : list (Row Anchor.kwargs)) (catalogue_filename : string) : Steps :=
  then_ (step (JSONCatalogue catalogue_filename))
    (then_ (add_rows (fun kw => MWoodScrew <$> WoodScrew.new kw) catalogue_filename screws)
           (add_rows (fun kw => MAnchor <$> Anchor.new kw) catalogue_filename anchors)).

(** The last section of the script.  [random_coords] is the value that
    [CoordSystem.random(span=20)] returns. *)
Definition export_display (env_name : string) (random_coords : CoordSystem) (w : World)
  : result World :=
  screw ← WoodScrew.new WoodScrew.no_kwargs;
  anchor ← Anchor.new Anchor.no_kwargs;
  together ← _Together.new;
  if String.eqb env_name "cmdline" then
    w ← export_gltf (MWoodScrew screw) "screw.gltf" w;
    w ← export_gltf (MAnchor anchor) "anchor.gltf" w;
    export_gltf (MTogether together) "together.gltf" w
  else if String.eqb env_name "freecad" then
    cp ← ConnectedPlanks.new;
    let cp := {| ConnectedPlanks.world_coords := Some random_coords |} in
    display (MConnectedPlanks cp) w
  else Ok w.

(** The statements of the script from the catalogue on, over its two
    tables.  [catalogue_filename] is the name that [tempfile.mktemp()]
    returns. *)
Definition script_steps (screws : list (Row WoodScrew.kwargs))
    (anchors : list (Row Anchor.kwargs))
    (env_name catalogue_filename : string) (random_coords : CoordSystem) : Steps :=
  then_ (build_catalogue screws anchors catalogue_filename)
    (then_ (step (unlink catalogue_filename))
           (step (export_display env_name random_coords))).

(** How the script ends. *)
Definition script_with (screws : list (Row WoodScrew.kwargs))
    (anchors : list (Row Anchor.kwargs))
    (env_name catalogue_filename : string) (random_coords : CoordSystem) (w : World)
  : result World :=
  outcome w (script_steps screws anchors env_name catalogue_filename random_coords w).

(** The script: its statements over its own two tables, and how it
    ends. *)
Definition script_history : string -> string -> CoordSystem -> Steps :=
  script_steps screws anchors.

Definition script (env_name catalogue_filename : string) (random_coords : CoordSystem)
    (w : World) : result World :=
  outcome w (script_history env_name catalogue_filename random_coords w).

(** ** The classes of the file *)

Inductive class :=
| cWoodScrew | cAnchor | c_Together | cEasyInstallFastener
| cSelector | cApplicator | cWoodPanel | cConnectedPlanks.

(** The parameters that a class body declares. *)
Definition own_params (c : class) : list string :=
  match c with
  | cWoodScrew =>
      ["head"; "drive"; "thread"; "neck_diam"; "neck_length"; "length";
       "neck_exposed"; "bore_diam"]
  | cAnchor =>
      ["drive"; "diameter"; "height"; "neck_diameter"; "head_diameter";
       "spline_point_count"; "ratio_start"; "ratio_end"]
  | cWoodPanel => ["thickness"; "width"; "length"]
  | c_Together | cEasyInstallFastener | cSelector | cApplicator | cConnectedPlanks => []
  end.

(** The methods and properties that a class body defines. *)
Definition own_methods (c : class) : list string :=
  match c with
  | cWoodScrew =>
      ["initialize_parameters"; "make"; "make_cutter"; "make_simple"; "mate_threadstart"]
  | cAnchor =>
      ["wedge_radii"; "make"; "make_simple"; "make_cutter"; "mate_screwhead";
       "mate_center"; "mate_base"]
  | c_Together => ["make_components"; "make_constraints"]
  | cEasyInstallFastener => []
  | cSelector => ["get_components"; "get_constraints"]
  | cApplicator => ["apply_alterations"]
  | cWoodPanel => ["make"; "mate_end"; "get_mate_edge"]
  | cConnectedPlanks => ["make_components"; "make_constraints"]
  end.

(** The classes nested in a class body. *)
Definition nested_classes (c : class) : list class :=
  match c with
  | cEasyInstallFastener => [cSelector; cApplicator]
  | _ => []
  end.

(** The five models of the file, in the order it defines them; the planks
    are a part and the assembly that joins two of them. *)
Definition models : list (list class) :=
  [[cWoodScrew]; [cAnchor]; [c_Together]; [cEasyInstallFastener];
   [cWoodPanel; cConnectedPlanks]].

(** ** Observations on solids *)

(** The point lists of the splines that a solid was built from, in the
    order of the calls. *)
Fixpoint splines (s : Solid) : list (list (float * float)) :=
  match s with
  | Workplane _ _ | MaleFastenerPart_make _ _ _ _ _ _ | make_pilothole_cutter _ => []
  | spline w points => splines w ++ [points]
  | cut w tool => splines w ++ splines tool
  | union w other => splines w ++ splines other
  | circle w _ | extrude w _ | translate w _ | rotate w _ _ _ | moveTo w _ _
  | lineTo w _ _ | threePointArc w _ _ | close w | rect w _ _ _ | box w _ _ _
  | drive_apply _ w | placed _ w => splines w
  end.

(** Every angle of a spline point is positive, for every point count that
    the declared range admits. *)
Definition angles_positive : bool :=
  forallb (fun n => forallb (fun i => (0 <? Anchor.spline_angle n i)%float) (range 1 (n + 1)))
          (range 4 201).

(** ** Vocabulary of the properties *)

Definition ratio_kwargs (ratio_start ratio_end : float) : Anchor.kwargs :=
  {| Anchor.kw_diameter := None; Anchor.kw_height := None;
     Anchor.kw_neck_diameter := None; Anchor.kw_head_diameter := None;
     Anchor.kw_spline_point_count := None;
     Anchor.kw_ratio_start := Some ratio_start;
     Anchor.kw_ratio_end := Some ratio_end |}.

(** The constructor accepts the two ratios, the wedge of the anchor it
    returns ends at a greater radius than it starts at, and every operation
    on that anchor still returns its value. *)
Definition widens (ratio_start ratio_end : float) : Prop :=
  exists a,
    Anchor.new (ratio_kwargs ratio_start ratio_end) = Ok a /\
    Anchor.ratio_start a = ratio_start /\ Anchor.ratio_end a = ratio_end /\
    (fst (call Anchor.wedge_radii a) <? snd (call Anchor.wedge_radii a))%float = true /\
    (forall cos sin, exists solid, Anchor.make cos sin a = (solid, a)) /\
    (exists mate, Anchor.mate_screwhead a = (mate, a)).

(** In how many effects of a list a part occurs. *)
Definition occurrences (r : nat) (eval : list Effect) : nat :=
  count_occ Nat.eq_dec (part <$> eval) r.

(** Two effects along the z axis, through two panels or through one. *)
Definition example_effect (z0 z1 : float) (r : nat) : Effect :=
  {| start_point := vec 0 0 z0; end_point := vec 0 0 z1; part := r |}.

Definition example_panel : PartObj :=
  {| local_obj := box XY0 40 30 15; world_coords := CoordSystem_at (vec 0 0 0) |}.

(** A translation, to stand for the framework's [a - b]. *)
Definition example_coords_sub (a b : CoordSystem) : CoordSystem :=
  {| origin := vsub (origin a) (origin b); xDir := xDir a; normal := normal a |}.

Definition example_alterations :=
  EasyInstallFastener.Applicator.apply_alterations example_coords_sub
    WoodScrew.defaults (CoordSystem_at (vec 0 0 20))
    Anchor.defaults (CoordSystem_at (vec 0 0 10)).

Definition defines_make (c : class) : Prop := "make" ∈ own_methods c.

Definition entry_of {kwargs} (row : Row kwargs) (o : Model) : Entry :=
  {| id := row_id row; criteria := row_criteria row; obj := o |}.

Definition new_screw (kw : WoodScrew.kwargs) : result Model := MWoodScrew <$> WoodScrew.new kw.
Definition new_anchor (kw : Anchor.kwargs) : result Model := MAnchor <$> Anchor.new kw.

Definition exported_files (w : World) : gmap string File :=
  <["together.gltf" := GltfFile (MTogether _Together.Build_t)]>
    (<["anchor.gltf" := GltfFile (MAnchor Anchor.defaults)]>
       (<["screw.gltf" := GltfFile (MWoodScrew WoodScrew.defaults)]> (files w))).

(** The declared constraints, as the values they exclude. *)
Definition negative (v : float) : bool := (v <? 0)%float.
Definition outside (lo hi v : float) : bool := (v <? lo)%float || (hi <? v)%float.
Definition outsideZ (lo hi v : Z) : bool := (v <? lo)%Z || (hi <? v)%Z.

(** A keyword argument was given and its value is excluded. *)
Definition given {A} (excluded : A -> bool) (kwarg : option A) : bool :=
  match kwarg with Some v => excluded v | None => false end.

Definition WoodScrew_refused (kw : WoodScrew.kwargs) : bool :=
  given negative (WoodScrew.kw_neck_diam kw)
  || given negative (WoodScrew.kw_neck_length kw)
  || given negative (WoodScrew.kw_length kw)
  || given negative (WoodScrew.kw_neck_exposed kw)
  || given negative (WoodScrew.kw_bore_diam kw).

Definition Anchor_refused (kw : Anchor.kwargs) : bool :=
  given negative (Anchor.kw_diameter kw)
  || given negative (Anchor.kw_height kw)
  || given negative (Anchor.kw_neck_diameter kw)
  || given negative (Anchor.kw_head_diameter kw)
  || given (outsideZ 4 200) (Anchor.kw_spline_point_count kw)
  || given (outside 0.5 0.99) (Anchor.kw_ratio_start kw)
  || given (outside 0.01 0.8) (Anchor.kw_ratio_end kw).

(** The value that a parameter takes: the one given, or the default. *)
Definition value_of {A} (default : A) (kwarg : option A) : A :=
  from_option (fun v => v) default kwarg.

(** The length of the screw does not exceed its neck length. *)
Definition WoodScrew_too_short (kw : WoodScrew.kwargs) : bool :=
  (value_of (WoodScrew.length WoodScrew.defaults) (WoodScrew.kw_length kw)
   <=? value_of (WoodScrew.neck_length WoodScrew.defaults) (WoodScrew.kw_neck_length kw))%float.

Definition WoodPanel_refused (kw : WoodPanel.kwargs) : bool :=
  given negative (WoodPanel.kw_thickness kw)
  || given negative (WoodPanel.kw_width kw)
  || given negative (WoodPanel.kw_length kw).

Definition with_spline_point_count (n : Z) : Anchor.kwargs :=
  {| Anchor.kw_diameter := None; Anchor.kw_height := None;
     Anchor.kw_neck_diameter := None; Anchor.kw_head_diameter := None;
     Anchor.kw_spline_point_count := Some n;
     Anchor.kw_ratio_start := None; Anchor.kw_ratio_end := None |}.

Definition with_neck_length (v : float) : WoodScrew.kwargs :=
  {| WoodScrew.kw_neck_diam := None; WoodScrew.kw_neck_length := Some v;
     WoodScrew.kw_length := None; WoodScrew.kw_neck_exposed := None;
     WoodScrew.kw_bore_diam := None |}.

(** The world in which the catalogue's file holds [items] and all else
    is as in [w]. *)
Definition catalogue_world (w : World) (filename : string) (items : list Entry) : World :=
  {| files := <[filename := CatalogueFile items]> (files w); displayed := displayed w |}.

(** The worlds that adding [entries] one by one to a catalogue of [items]
    goes through. *)
Fixpoint catalogue_worlds (w : World) (filename : string) (items entries : list Entry)
  : list World :=
  match entries with
  | [] => []
  | e :: entries =>
      catalogue_world w filename (items ++ [e])
      :: catalogue_worlds w filename (items ++ [e]) entries
  end.

(** ** Checks by evaluation over the declared range of the point count *)

(** For every admitted point count [n]: the angles and the interpolation
    parameters [i / float(n)] of consecutive spline points increase, the
    first parameter is positive, the last one is 1, and the last angle is
    [math.pi] or one of its two neighbours. *)
Definition spline_steps_checked : bool :=
  forallb
    (fun n =>
       forallb
         (fun i =>
            (Anchor.spline_angle n i <? Anchor.spline_angle n (i + 1))%float
            && (of_int i / of_int n <? of_int (i + 1) / of_int n)%float)
         (range 1 n)
       && (0 <? of_int 1 / of_int n)%float
       && (of_int n / of_int n =? 1)%float
       && (next_down pi <=? Anchor.spline_angle n n)%float
       && (Anchor.spline_angle n n <=? next_up pi)%float)
    (range 4 201).

(** The parameters of a screw and of an anchor that their cutters read. *)
Definition same_screw_cutter (s1 s2 : WoodScrew.t) : Prop :=
  WoodScrew.bore_diam s1 = WoodScrew.bore_diam s2 /\
  WoodScrew.neck_length s1 = WoodScrew.neck_length s2 /\
  WoodScrew.length s1 = WoodScrew.length s2 /\
  WoodScrew.thread s1 = WoodScrew.thread s2.

Definition same_anchor_cutter (a1 a2 : Anchor.t) : Prop :=
  Anchor.height a1 = Anchor.height a2 /\ Anchor.diameter a1 = Anchor.diameter a2.

(** * Properties *)

(** ** Methods that only read their object *)

Lemma read_only_ret {S A} (a : A) : read_only (mret a : Method S A).
Proof. intros self. reflexivity. Qed.

Lemma read_only_attr {S A} (field : S -> A) : read_only (attr field).
Proof. intros self. reflexivity. Qed.

Lemma read_only_bind {S A B} (m : Method S A) (f : A -> Method S B) :
  read_only m -> (forall a, read_only (f a)) -> read_only (m ≫= f).
Proof.
  intros Hm Hf self. unfold mbind, method_bind.
  specialize (Hm self). destruct (m self) as [a self']. simpl in Hm. subst self'.
  apply Hf.
Qed.

Lemma read_only_run {S A} (m : Method S A) (self : S) :
  read_only m -> m self = (call m self, self).
Proof.
  intros Hm. unfold call. rewrite <- (Hm self) at 3. apply surjective_pairing.
Qed.

#[local] Ltac read_only_step :=
  first [ apply read_only_attr
        | apply read_only_ret
        | apply read_only_bind; [ | intros ? ]
        | match goal with
          | |- read_only (let '(_, _) := ?p in _) => destruct p
          | |- read_only (match ?x with Some _ => _ | None => _ end) => destruct x
          end
        | progress cbv zeta ].

#[local] Ltac read_only_tac := repeat read_only_step.

Lemma WoodScrew_make_read_only : read_only WoodScrew.make.
Proof. unfold WoodScrew.make. read_only_tac. Qed.

Lemma WoodScrew_make_cutter_read_only : read_only WoodScrew.make_cutter.
Proof. unfold WoodScrew.make_cutter. read_only_tac. Qed.

Lemma WoodScrew_mate_threadstart_read_only : read_only WoodScrew.mate_threadstart.
Proof. unfold WoodScrew.mate_threadstart. read_only_tac. Qed.

Lemma Anchor_wedge_radii_read_only : read_only Anchor.wedge_radii.
Proof. unfold Anchor.wedge_radii. read_only_tac. Qed.

Lemma Anchor_make_read_only cos sin : read_only (Anchor.make cos sin).
Proof. unfold Anchor.make. read_only_tac; apply Anchor_wedge_radii_read_only. Qed.

Lemma Anchor_make_simple_read_only : read_only Anchor.make_simple.
Proof. unfold Anchor.make_simple. read_only_tac. Qed.

Lemma Anchor_make_cutter_read_only : read_only Anchor.make_cutter.
Proof. unfold Anchor.make_cutter. read_only_tac. Qed.

Lemma Anchor_mate_screwhead_read_only : read_only Anchor.mate_screwhead.
Proof. unfold Anchor.mate_screwhead. read_only_tac; apply Anchor_wedge_radii_read_only. Qed.

Lemma Anchor_mate_center_read_only : read_only Anchor.mate_center.
Proof. unfold Anchor.mate_center. read_only_tac. Qed.

Lemma Anchor_mate_base_read_only : read_only Anchor.mate_base.
Proof. unfold Anchor.mate_base. read_only_tac. Qed.

Create HintDb read_only.
#[export] Hint Resolve WoodScrew_make_read_only WoodScrew_make_cutter_read_only
  WoodScrew_mate_threadstart_read_only Anchor_wedge_radii_read_only
  Anchor_make_read_only Anchor_make_simple_read_only Anchor_make_cutter_read_only
  Anchor_mate_screwhead_read_only Anchor_mate_center_read_only
  Anchor_mate_base_read_only : read_only.

(** An assignment to a parameter is not read-only: the property separates
    the methods that write from those that do not. *)
Lemma assign_not_read_only :
  ~ read_only (assign (fun a : Anchor.t =>
                         {| Anchor.drive := Anchor.drive a;
                            Anchor.diameter := 1;
                            Anchor.height := Anchor.height a;
                            Anchor.neck_diameter := Anchor.neck_diameter a;
                            Anchor.head_diameter := Anchor.head_diameter a;
                            Anchor.spline_point_count := Anchor.spline_point_count a;
                            Anchor.ratio_start := Anchor.ratio_start a;
                            Anchor.ratio_end := Anchor.ratio_end a |})).
Proof.
  intros H.
  specialize (H {| Anchor.drive := None; Anchor.diameter := 2; Anchor.height := 1;
                   Anchor.neck_diameter := 1; Anchor.head_diameter := 1;
                   Anchor.spline_point_count := 4; Anchor.ratio_start := 1;
                   Anchor.ratio_end := 1 |}).
  apply (f_equal (fun a => (Anchor.diameter a =? 2)%float)) in H.
  vm_compute in H. discriminate H.
Qed.

(** C6: no operation of a wood screw or of an anchor ([make],
    [make_simple], [make_cutter], the mate properties, [wedge_radii])
    changes the object it is called on, so every declared parameter keeps the
    value it had after construction. *)
Theorem parameters_unchanged_by_operations :
  (read_only WoodScrew.make /\ read_only WoodScrew.make_simple /\
   read_only WoodScrew.make_cutter /\ read_only WoodScrew.mate_threadstart) /\
  (forall cos sin,
     read_only (Anchor.make cos sin) /\ read_only Anchor.make_simple /\
     read_only Anchor.make_cutter /\ read_only Anchor.wedge_radii /\
     read_only Anchor.mate_screwhead /\ read_only Anchor.mate_center /\
     read_only Anchor.mate_base).
Proof.
  refine (conj (conj _ (conj _ (conj _ _)))
               (fun cos sin => conj _ (conj _ (conj _ (conj _ (conj _ (conj _ _)))))));
    auto with read_only.
Qed.

(** ** The simplified screw *)

(** C9: the simplified model of a wood screw is its cutter: a circle of
    radius [bore_diam / 2] on the XY plane at the origin extruded by
    [- neck_length], united with the thread's pilot-hole cutter translated
    to [z = - length]. *)
Theorem make_simple_is_make_cutter (s : WoodScrew.t) :
  WoodScrew.make_simple s = WoodScrew.make_cutter s /\
  call WoodScrew.make_simple s =
    union
      (extrude (circle (Workplane "XY" (vec 0 0 0)) (WoodScrew.bore_diam s / 2))
               (- WoodScrew.neck_length s))
      (translate (make_pilothole_cutter (WoodScrew.thread s))
                 (vec 0 0 (- WoodScrew.length s))).
Proof. split; reflexivity. Qed.

(** ** The anchor's wedge *)

Lemma range_length (a b : Z) : length (range a b) = Z.to_nat (b - a).
Proof. unfold range. apply length_seqZ. Qed.

Lemma range_lookup (a b i : Z) :
  (a <= i < b)%Z -> range a b !! Z.to_nat (i - a) = Some i.
Proof.
  intros Hi. unfold range. apply lookup_seqZ. split; lia.
Qed.

Lemma range_In (a b i : Z) : (a <= i < b)%Z -> In i (range a b).
Proof.
  intros Hi. apply list_elem_of_In. unfold range. apply elem_of_seqZ. lia.
Qed.

Lemma angles_positive_true : angles_positive = true.
Proof. vm_compute. reflexivity. Qed.

Lemma spline_angle_positive (n i : Z) :
  (4 <= n <= 200)%Z -> (1 <= i <= n)%Z -> (0 <? Anchor.spline_angle n i)%float = true.
Proof.
  intros Hn Hi. pose proof angles_positive_true as H. unfold angles_positive in H.
  rewrite forallb_forall in H. specialize (H n (range_In 4 201 n ltac:(lia))).
  rewrite forallb_forall in H. apply H. apply range_In. lia.
Qed.

Section Wedge.

Variables cos sin : float -> float.

Lemma spline_points_length (start_r end_r : float) (n : Z) :
  length (Anchor.spline_points cos sin start_r end_r n) = Z.to_nat n.
Proof.
  unfold Anchor.spline_points, Anchor.angles_radius.
  rewrite !length_fmap, range_length. f_equal. lia.
Qed.

Lemma spline_points_lookup (start_r end_r : float) (n i : Z) :
  (1 <= i <= n)%Z ->
  Anchor.spline_points cos sin start_r end_r n !! Z.to_nat (i - 1) =
    Some (cos (Anchor.spline_angle n i) * Anchor.spline_radius start_r end_r n i,
          - sin (Anchor.spline_angle n i) * Anchor.spline_radius start_r end_r n i)%float.
Proof.
  intros Hi. unfold Anchor.spline_points, Anchor.angles_radius.
  rewrite !list_lookup_fmap, range_lookup by lia. reflexivity.
Qed.

Lemma make_splines (a : Anchor.t) :
  splines (call (Anchor.make cos sin) a) =
    [Anchor.spline_points cos sin
       (fst (call Anchor.wedge_radii a)) (snd (call Anchor.wedge_radii a))
       (Anchor.spline_point_count a)].
Proof. destruct a as [[dr|] d h nd hd n rs re]; reflexivity. Qed.

(** C3: [wedge_radii] is the pair of [(diameter / 2) * ratio_start] and
    [(diameter / 2) * ratio_end]; the one spline of [make] goes through
    exactly [spline_point_count] points, the [i]-th of them (counted
    from 1) at the angle [i * (pi / spline_point_count)] and at the radius
    interpolated between the two wedge radii, as
    [(cos a * r, - sin a * r)]; and no angle is zero for a point count
    in the declared range. *)
Theorem wedge_spline (a : Anchor.t) :
  let n := Anchor.spline_point_count a in
  let start_r := (Anchor.diameter a / 2 * Anchor.ratio_start a)%float in
  let end_r := (Anchor.diameter a / 2 * Anchor.ratio_end a)%float in
  call Anchor.wedge_radii a = (start_r, end_r) /\
  (exists points,
     splines (call (Anchor.make cos sin) a) = [points] /\
     length points = Z.to_nat n /\
     forall i, (1 <= i <= n)%Z ->
       let angle := (of_int i * (pi / of_int n))%float in
       let radius := (start_r + (end_r - start_r) * (of_int i / of_int n))%float in
       points !! Z.to_nat (i - 1) = Some (cos angle * radius, - sin angle * radius)%float) /\
  ((4 <= n <= 200)%Z -> forall i, (1 <= i <= n)%Z ->
     (0 <? of_int i * (pi / of_int n))%float = true).
Proof.
  intros n start_r end_r. split; [reflexivity | split].
  - eexists. split; [apply make_splines | split].
    + apply spline_points_length.
    + intros i Hi. cbv zeta. apply (spline_points_lookup _ _ _ _ Hi).
  - intros Hn i Hi. apply (spline_angle_positive n i Hn Hi).
Qed.

End Wedge.

Lemma widens_by_evaluation (rs re : float) (a : Anchor.t) :
  Anchor.new (ratio_kwargs rs re) = Ok a ->
  Anchor.ratio_start a = rs -> Anchor.ratio_end a = re ->
  (fst (call Anchor.wedge_radii a) <? snd (call Anchor.wedge_radii a))%float = true ->
  widens rs re.
Proof.
  intros Hnew Hrs Hre Hlt. exists a. repeat (split; [assumption | ]). split.
  - intros cos sin. eexists. apply read_only_run. auto with read_only.
  - eexists. apply read_only_run. auto with read_only.
Qed.

(** C10: the declared ranges let the wedge widen.  The constructor accepts
    [ratio_start = 0.5] with [ratio_end = 0.8] (the ends of the two
    ranges) and also [0.6] with [0.75] (inside them); in both anchors the
    end radius is greater than the start radius, and [make] and the
    screw-head mate, which use the radii, return their values all the
    same. *)
Theorem wedge_may_widen : widens 0.5 0.8 /\ widens 0.6 0.75.
Proof.
  split; eapply widens_by_evaluation; vm_compute; reflexivity.
Qed.

(** ** The screw that the selector sizes *)

Lemma getitem_first {A} (l : list A) (x : A) : head l = Some x -> getitem l 0 = Ok x.
Proof. destruct l as [|y l]; [discriminate | ]. intros [= ->]. reflexivity. Qed.

Lemma getitem_last {A} (l : list A) (x : A) : last l = Some x -> getitem l (-1) = Ok x.
Proof.
  intros Hlast. unfold getitem.
  assert (length l <> 0) as Hlen by (destruct l; [discriminate | simpl; lia]).
  replace (-1 <? 0)%Z with true by reflexivity.
  destruct (Z.ltb_spec (-1 + Z.of_nat (length l)) 0) as [Hneg | _]; [lia | ].
  replace (Z.to_nat (-1 + Z.of_nat (length l))) with (pred (length l)) by lia.
  rewrite <- last_lookup, Hlast. reflexivity.
Qed.

Lemma getitem_empty {A} (i : Z) : getitem (@nil A) i = Raise IndexError.
Proof. unfold getitem. simpl. destruct (i <? 0)%Z, (_ <? 0)%Z; reflexivity. Qed.

Lemma PositiveFloat_Ok (v v' : float) : PositiveFloat v = Ok v' -> v' = v.
Proof. unfold PositiveFloat. destruct (v <? 0)%float; [discriminate | ]. intros [= <-]. reflexivity. Qed.

Lemma PositiveFloat_accepts (v : float) :
  PositiveFloat v = Ok v <-> (v <? 0)%float = false.
Proof. unfold PositiveFloat. destruct (v <? 0)%float; split; congruence. Qed.

(** The constructor of a screw that is given its two lengths: the casts
    come first, then the inherited check. *)
Lemma WoodScrew_new_lengths (nl l : float) :
  WoodScrew.new {| WoodScrew.kw_neck_diam := None;
                   WoodScrew.kw_neck_length := Some nl;
                   WoodScrew.kw_length := Some l;
                   WoodScrew.kw_neck_exposed := None;
                   WoodScrew.kw_bore_diam := None |}
  = if (nl <? 0)%float then Raise ParameterError
    else if (l <? 0)%float then Raise ParameterError
    else if (l <=? nl)%float then Raise ValueError
    else Ok {| WoodScrew.head := WoodScrew.head WoodScrew.defaults;
               WoodScrew.drive := WoodScrew.drive WoodScrew.defaults;
               WoodScrew.thread := WoodScrew.thread WoodScrew.defaults;
               WoodScrew.neck_diam := WoodScrew.neck_diam WoodScrew.defaults;
               WoodScrew.neck_length := nl;
               WoodScrew.length := l;
               WoodScrew.neck_exposed := WoodScrew.neck_exposed WoodScrew.defaults;
               WoodScrew.bore_diam := WoodScrew.bore_diam WoodScrew.defaults |}.
Proof.
  unfold WoodScrew.new, PositiveFloat, WoodScrew.initialize_parameters,
    WoodScrew.MaleFastenerPart_initialize_parameters.
  cbn [cast WoodScrew.kw_neck_diam WoodScrew.kw_neck_length WoodScrew.kw_length
       WoodScrew.kw_neck_exposed WoodScrew.kw_bore_diam mbind result_bind mret result_ret].
  destruct (nl <? 0)%float; [reflexivity | ].
  destruct (l <? 0)%float; [reflexivity | ].
  cbn [mbind result_bind WoodScrew.length WoodScrew.neck_length].
  destruct (l <=? nl)%float; reflexivity.
Qed.

(** The selector raises [IndexError] on an empty effect list. *)
Lemma get_components_empty :
  EasyInstallFastener.Selector.get_components [] = Raise IndexError.
Proof. reflexivity. Qed.

(** What the selector does with a list that has a first and a last
    effect. *)
Lemma get_components_eq (eval : list Effect) (e_first e_last : Effect) :
  head eval = Some e_first ->
  last eval = Some e_last ->
  let neck_length :=
    (vabs (vsub (start_point e_last) (start_point e_first))
     - EasyInstallFastener.Selector.anchor_slack Anchor.defaults)%float in
  let thread_length :=
    (vabs (vsub (end_point e_last) (start_point e_last)) * 0.8)%float in
  EasyInstallFastener.Selector.get_components eval
  = screw ← WoodScrew.new
              {| WoodScrew.kw_neck_diam := None;
                 WoodScrew.kw_neck_length := Some neck_length;
                 WoodScrew.kw_length := Some (neck_length + thread_length)%float;
                 WoodScrew.kw_neck_exposed := None;
                 WoodScrew.kw_bore_diam := None |};
    mret {| EasyInstallFastener.Selector.anchor := Anchor.defaults;
            EasyInstallFastener.Selector.screw := screw |}.
Proof.
  intros Hfirst Hlast. cbv zeta. unfold EasyInstallFastener.Selector.get_components.
  change (Anchor.new Anchor.no_kwargs) with (Ok Anchor.defaults).
  rewrite (getitem_last _ _ Hlast), (getitem_first _ _ Hfirst). reflexivity.
Qed.

(** C1: for a non-empty effect list, the wood screw that
    [Selector.get_components] creates has [neck_length] equal to the
    distance between the start points of the first and the last effect
    minus the anchor's slack (the distance between the origins of the
    default anchor's [mate_base] and [mate_center]), and [length] equal to
    that [neck_length] plus 0.8 times the length of the last effect.  The
    screw is created exactly when the constructor accepts these two
    values: neither is negative, and the length exceeds the neck length. *)
Theorem get_components_screw (eval : list Effect) (e_first e_last : Effect)
    (default_anchor : Anchor.t) :
  head eval = Some e_first ->
  last eval = Some e_last ->
  Anchor.new Anchor.no_kwargs = Ok default_anchor ->
  let slack :=
    vabs (vsub (origin (local_coords (call Anchor.mate_base default_anchor)))
               (origin (local_coords (call Anchor.mate_center default_anchor)))) in
  let neck_length :=
    (vabs (vsub (start_point e_last) (start_point e_first)) - slack)%float in
  let thread_length :=
    (vabs (vsub (end_point e_last) (start_point e_last)) * 0.8)%float in
  (forall c, EasyInstallFastener.Selector.get_components eval = Ok c ->
     EasyInstallFastener.Selector.anchor c = default_anchor /\
     WoodScrew.neck_length (EasyInstallFastener.Selector.screw c) = neck_length /\
     WoodScrew.length (EasyInstallFastener.Selector.screw c)
       = (neck_length + thread_length)%float) /\
  ((exists c, EasyInstallFastener.Selector.get_components eval = Ok c) <->
   (neck_length <? 0)%float = false /\
   (neck_length + thread_length <? 0)%float = false /\
   (neck_length + thread_length <=? neck_length)%float = false).
Proof.
  intros Hfirst Hlast Hnew slack neck_length thread_length.
  injection Hnew as <-.
  rewrite (get_components_eq eval e_first e_last Hfirst Hlast). cbv zeta.
  change (vabs (vsub (start_point e_last) (start_point e_first))
          - EasyInstallFastener.Selector.anchor_slack Anchor.defaults)%float
    with neck_length.
  fold thread_length. rewrite WoodScrew_new_lengths.
  destruct (neck_length <? 0)%float;
    [split; [discriminate | split; [intros [c Hc]; discriminate Hc | intros [[=] _]]] | ].
  destruct (neck_length + thread_length <? 0)%float;
    [split; [discriminate | split; [intros [c Hc]; discriminate Hc | intros (_ & [=] & _)]] | ].
  destruct (neck_length + thread_length <=? neck_length)%float;
    [split; [discriminate | split; [intros [c Hc]; discriminate Hc | intros (_ & _ & [=])]] | ].
  cbn [mbind result_bind mret result_ret]. split.
  - intros c [= <-]. repeat split.
  - split; [auto | intros _; eexists; reflexivity].
Qed.

(** ** The cuts that the applicator makes *)

Lemma occurrences_cons (r : nat) (e : Effect) (eval : list Effect) :
  occurrences r (e :: eval) =
    if decide (part e = r) then S (occurrences r eval) else occurrences r eval.
Proof.
  unfold occurrences. rewrite fmap_cons.
  destruct (decide (part e = r)) as [Heq | Hne].
  - apply count_occ_cons_eq, Heq.
  - apply count_occ_cons_neq, Hne.
Qed.

Lemma occurrences_app (r : nat) (l1 l2 : list Effect) :
  occurrences r (l1 ++ l2) = occurrences r l1 + occurrences r l2.
Proof. unfold occurrences. rewrite fmap_app. apply count_occ_app. Qed.

Lemma occurrences_absent (r : nat) (eval : list Effect) :
  r ∉ part <$> eval <-> occurrences r eval = 0.
Proof.
  unfold occurrences. rewrite <- count_occ_not_In, list_elem_of_In. reflexivity.
Qed.

Lemma occurrences_present (e : Effect) (eval : list Effect) :
  e ∈ eval -> 1 <= occurrences (part e) eval.
Proof.
  intros He. unfold occurrences.
  apply (count_occ_In Nat.eq_dec), list_elem_of_In, list_elem_of_fmap_2, He.
Qed.

Lemma all_but_last_snoc {A} (l : list A) (x : A) : all_but_last (l ++ [x]) = l.
Proof.
  unfold all_but_last. apply take_app_length'. rewrite length_app. simpl. lia.
Qed.

(** A loop that alters the part of each effect in turn alters a part as
    many times as it occurs. *)
Lemma foldl_alter_lookup (f : PartObj -> PartObj) (eval : list Effect)
    (heap : gmap nat PartObj) (r : nat) :
  foldl (fun heap effect => alter f (part effect) heap) heap eval !! r
  = Nat.iter (occurrences r eval) f <$> heap !! r.
Proof.
  revert heap. induction eval as [|e eval IH]; intros heap.
  - simpl. symmetry. apply option_fmap_id.
  - simpl. rewrite IH, occurrences_cons.
    destruct (decide (part e = r)) as [-> | Hne].
    + rewrite lookup_alter_eq, <- option_fmap_compose.
      destruct (heap !! r) as [p|]; [ | reflexivity].
      simpl. f_equal. symmetry. apply Nat.iter_succ_r.
    + rewrite lookup_alter_ne by exact Hne. reflexivity.
Qed.

Section ApplicatorFacts.

Variable coords_sub : CoordSystem -> CoordSystem -> CoordSystem.
Variables (screw : WoodScrew.t) (screw_world_coords : CoordSystem).
Variables (anchor : Anchor.t) (anchor_world_coords : CoordSystem).

#[local] Abbreviation apply_alterations :=
  (EasyInstallFastener.Applicator.apply_alterations
     coords_sub screw screw_world_coords anchor anchor_world_coords).
#[local] Abbreviation cut_screw :=
  (EasyInstallFastener.Applicator.cut_part
     coords_sub screw_world_coords (call WoodScrew.make_cutter screw)).
#[local] Abbreviation cut_anchor :=
  (EasyInstallFastener.Applicator.cut_part
     coords_sub anchor_world_coords (call Anchor.make_cutter anchor)).

(** Every part is cut with the screw cutter once for each effect it is
    the part of, then with the anchor cutter once for each such effect
    but the last of the list. *)
Lemma apply_alterations_lookup (eval : list Effect) (heap : gmap nat PartObj) (r : nat) :
  apply_alterations eval heap !! r
  = (fun p => Nat.iter (occurrences r (all_but_last eval)) cut_anchor
                (Nat.iter (occurrences r eval) cut_screw p)) <$> heap !! r.
Proof.
  unfold EasyInstallFastener.Applicator.apply_alterations.
  cbv zeta. rewrite !foldl_alter_lookup, <- option_fmap_compose. reflexivity.
Qed.

(** C8, amended: every part of an effect is cut with the screw cutter,
    moved into the part's coordinates, once for each effect it is the part
    of, and the part of every effect but the last is then cut with the
    anchor cutter as well, once for each such effect; a part of no effect
    is left as it was; and the part of the last effect is cut with the
    screw cutter only, once, when it is not also the part of an earlier
    effect. *)
Theorem apply_alterations_cuts (eval : list Effect) (heap : gmap nat PartObj) :
  (forall r,
     apply_alterations eval heap !! r
     = (fun p => Nat.iter (occurrences r (all_but_last eval)) cut_anchor
                   (Nat.iter (occurrences r eval) cut_screw p)) <$> heap !! r) /\
  (forall e, e ∈ eval -> 1 <= occurrences (part e) eval) /\
  (forall e, e ∈ all_but_last eval -> 1 <= occurrences (part e) (all_but_last eval)) /\
  (forall r, r ∉ part <$> eval -> apply_alterations eval heap !! r = heap !! r) /\
  (forall e_last,
     last eval = Some e_last ->
     part e_last ∉ part <$> all_but_last eval ->
     apply_alterations eval heap !! part e_last
     = (fun p =>
          {| local_obj :=
               cut (local_obj p)
                   (placed (coords_sub screw_world_coords (world_coords p))
                           (call WoodScrew.make_cutter screw));
             world_coords := world_coords p |}) <$> heap !! part e_last).
Proof.
  split; [intros r; apply apply_alterations_lookup | ].
  split; [intros e; apply occurrences_present | ].
  split; [intros e; apply occurrences_present | ].
  split.
  - intros r Hr. rewrite apply_alterations_lookup.
    assert (occurrences r eval = 0) as -> by (apply occurrences_absent, Hr).
    assert (occurrences r (all_but_last eval) = 0) as ->.
    { apply occurrences_absent. intros Hin. apply Hr.
      unfold all_but_last in Hin. rewrite fmap_take in Hin.
      exact (subseteq_take _ _ _ Hin). }
    simpl. apply option_fmap_id.
  - intros e_last Hlast Hfresh. rewrite apply_alterations_lookup.
    apply last_Some in Hlast as [init ->].
    rewrite all_but_last_snoc in Hfresh |- *.
    rewrite occurrences_app, occurrences_cons.
    apply occurrences_absent in Hfresh. rewrite Hfresh.
    destruct (decide (part e_last = part e_last)) as [_ | Hne]; [ | contradiction].
    reflexivity.
Qed.

End ApplicatorFacts.

Lemma apply_alterations_cuts_witness :
  example_alterations [example_effect 0 15 0; example_effect 15 30 1]
      {[ 0 := example_panel; 1 := example_panel ]} !! 1
  = Some {| local_obj :=
              cut (local_obj example_panel)
                  (placed (CoordSystem_at (vec 0 0 20))
                          (call WoodScrew.make_cutter WoodScrew.defaults));
            world_coords := world_coords example_panel |}.
Proof.
  pose proof
    (apply_alterations_cuts example_coords_sub
       WoodScrew.defaults (CoordSystem_at (vec 0 0 20))
       Anchor.defaults (CoordSystem_at (vec 0 0 10))
       [example_effect 0 15 0; example_effect 15 30 1]
       {[ 0 := example_panel; 1 := example_panel ]}) as H.
  destruct H as (_ & _ & _ & _ & H).
  apply (H (example_effect 15 30 1) eq_refl).
  vm_compute. intros Hin. apply list_elem_of_In in Hin. simpl in Hin.
  destruct Hin as [Heq | []]. discriminate Heq.
Defined.

(** C8 as stated fails when the last effect's part is also the part of an
    earlier effect: the one panel of both effects is cut with the screw
    cutter twice and then with the anchor cutter. *)
Lemma last_part_also_cut_by_anchor :
  let eval := [example_effect 0 15 0; example_effect 15 30 0] in
  let heap : gmap nat PartObj := {[ 0 := example_panel ]} in
  let screw_cutter :=
    placed (CoordSystem_at (vec 0 0 20)) (call WoodScrew.make_cutter WoodScrew.defaults) in
  let anchor_cutter :=
    placed (CoordSystem_at (vec 0 0 10)) (call Anchor.make_cutter Anchor.defaults) in
  part <$> last eval = Some 0 /\
  local_obj <$> example_alterations eval heap !! 0
  = Some (cut (cut (cut (local_obj example_panel) screw_cutter) screw_cutter) anchor_cutter) /\
  local_obj <$> example_alterations eval heap !! 0
  <> Some (cut (local_obj example_panel) screw_cutter).
Proof.
  cbv zeta. split; [reflexivity | ].
  assert (local_obj <$>
            example_alterations [example_effect 0 15 0; example_effect 15 30 0]
              {[ 0 := example_panel ]} !! 0
          = Some (cut (cut (cut (local_obj example_panel)
                 (placed (CoordSystem_at (vec 0 0 20))
                    (call WoodScrew.make_cutter WoodScrew.defaults)))
                 (placed (CoordSystem_at (vec 0 0 20))
                    (call WoodScrew.make_cutter WoodScrew.defaults)))
                 (placed (CoordSystem_at (vec 0 0 10))
                    (call Anchor.make_cutter Anchor.defaults)))) as Hrun.
  { unfold example_alterations. rewrite apply_alterations_lookup.
    rewrite lookup_singleton_eq. reflexivity. }
  split; [exact Hrun | ].
  rewrite Hrun. intros [=].
Qed.

Lemma get_components_screw_witness :
  exists c,
    EasyInstallFastener.Selector.get_components
      [example_effect 0 15 0; example_effect 15 30 1] = Ok c /\
    WoodScrew.neck_length (EasyInstallFastener.Selector.screw c) = 12.5%float /\
    WoodScrew.length (EasyInstallFastener.Selector.screw c) = 24.5%float.
Proof.
  destruct (get_components_screw
              [example_effect 0 15 0; example_effect 15 30 1]
              (example_effect 0 15 0) (example_effect 15 30 1) Anchor.defaults
              eq_refl eq_refl eq_refl) as [Hfields Hcreated].
  destruct (proj2 Hcreated) as [c Hc]; [repeat split; reflexivity | ].
  exists c. split; [exact Hc | ].
  destruct (Hfields c Hc) as (_ & Hneck & Hlength).
  rewrite Hneck, Hlength. split; reflexivity.
Defined.

(** A single effect never yields a screw: the distance between the first
    and the last start point is then zero, and the neck length negative. *)
Lemma get_components_single_effect (e : Effect) :
  vabs (vsub (start_point e) (start_point e)) = 0%float ->
  EasyInstallFastener.Selector.get_components [e] = Raise ParameterError.
Proof.
  intros Hzero. unfold EasyInstallFastener.Selector.get_components.
  change (Anchor.new Anchor.no_kwargs) with (Ok Anchor.defaults).
  change (getitem [e] (-1)) with (Ok e). change (getitem [e] 0) with (Ok e).
  cbn [mbind result_bind]. rewrite Hzero. reflexivity.
Qed.

(** ** Which classes define [make] *)

Lemma together_defines_no_make :
  [c_Together] ∈ models /\
  ~ defines_make c_Together /\ own_params c_Together = [].
Proof.
  split; [ | split].
  - apply list_elem_of_In. simpl. tauto.
  - unfold defines_make. intros H. apply list_elem_of_In in H. simpl in H.
    intuition discriminate.
  - reflexivity.
Qed.

(** C7 as stated fails: not every one of the five models has a class that
    defines a [make] of its own.  The assembly of screw and anchor,
    [_Together], defines [make_components] and [make_constraints] only. *)
Lemma not_every_model_defines_make :
  ~ (forall m, m ∈ models -> exists c, c ∈ m /\ defines_make c).
Proof.
  intros Hall. destruct together_defines_no_make as (Hin & Hno & _).
  destruct (Hall _ Hin) as (c & Hc & Hmake).
  apply list_elem_of_singleton in Hc as ->. exact (Hno Hmake).
Qed.

#[local] Ltac listed := apply list_elem_of_In; simpl; tauto.
#[local] Ltac not_listed H :=
  exfalso; apply list_elem_of_In in H; simpl in H; intuition discriminate.

(** C7, amended: [make] is defined by the three parts, [WoodScrew],
    [Anchor] and [WoodPanel], which also declare the parameters; the two
    assemblies, [_Together] and [ConnectedPlanks], declare no parameter and
    define [make_components] and [make_constraints] instead; and
    [EasyInstallFastener] declares no parameter and defines no method of its
    own, but the nested classes [Selector], with [get_components] and
    [get_constraints], and [Applicator], with [apply_alterations]. *)
Theorem models_and_their_methods :
  (forall c, defines_make c <-> c = cWoodScrew \/ c = cAnchor \/ c = cWoodPanel) /\
  (forall c, own_params c <> [] <-> c = cWoodScrew \/ c = cAnchor \/ c = cWoodPanel) /\
  (forall c, c = c_Together \/ c = cConnectedPlanks ->
     own_methods c = ["make_components"; "make_constraints"]) /\
  own_methods cEasyInstallFastener = [] /\
  nested_classes cEasyInstallFastener = [cSelector; cApplicator] /\
  own_methods cSelector = ["get_components"; "get_constraints"] /\
  own_methods cApplicator = ["apply_alterations"] /\
  (forall m, m ∈ models -> exists c, c ∈ m /\
     (defines_make c \/ "make_components" ∈ own_methods c \/ nested_classes c <> [])).
Proof.
  split; [ | split; [ | split; [ | repeat split ]]].
  - intros c. unfold defines_make.
    destruct c; (split; [intros H | intros [H | [H | H]]]);
      first [ discriminate H | tauto | listed | not_listed H ].
  - intros c.
    destruct c; (split; [intros H | intros [H | [H | H]]]);
      first [ discriminate H | tauto | discriminate | contradiction ].
  - intros c [-> | ->]; reflexivity.
  - intros m Hm. unfold models in Hm.
    repeat (apply elem_of_cons in Hm as [-> | Hm]).
    + exists cWoodScrew. split; [listed | left; unfold defines_make; listed].
    + exists cAnchor. split; [listed | left; unfold defines_make; listed].
    + exists c_Together. split; [listed | right; left; listed].
    + exists cEasyInstallFastener. split; [listed | right; right; discriminate].
    + exists cWoodPanel. split; [listed | left; unfold defines_make; listed].
    + apply elem_of_nil in Hm as [].
Qed.

(** ** The script *)

Lemma World_eta (w : World) : {| files := files w; displayed := displayed w |} = w.
Proof. destruct w. reflexivity. Qed.

Lemma catalogue_world_lookup (w : World) (filename : string) (items : list Entry) :
  files (catalogue_world w filename items) !! filename = Some (CatalogueFile items).
Proof. apply lookup_insert_eq. Qed.

Lemma catalogue_world_again (w : World) (filename : string) (items items' : list Entry) :
  catalogue_world (catalogue_world w filename items) filename items'
  = catalogue_world w filename items'.
Proof. unfold catalogue_world. cbn [files displayed]. rewrite insert_insert_eq. reflexivity. Qed.

Lemma catalogue_worlds_app (w : World) (filename : string) (items es1 es2 : list Entry) :
  catalogue_worlds w filename items (es1 ++ es2)
  = catalogue_worlds w filename items es1 ++ catalogue_worlds w filename (items ++ es1) es2.
Proof.
  revert items. induction es1 as [|e es1 IH]; intros items.
  - simpl. rewrite app_nil_r. reflexivity.
  - simpl. rewrite IH, <- app_assoc. reflexivity.
Qed.

Lemma last_world_catalogue_worlds (w : World) (filename : string) (items es : list Entry) :
  last_world (catalogue_world w filename items) (catalogue_worlds w filename items es)
  = catalogue_world w filename (items ++ es).
Proof.
  revert items. induction es as [|e es IH]; intros items.
  - simpl. rewrite app_nil_r. reflexivity.
  - specialize (IH (items ++ [e])). rewrite <- app_assoc in IH. simpl in IH.
    rewrite <- IH. unfold last_world. simpl catalogue_worlds.
    rewrite last_cons. destruct (last (catalogue_worlds w filename (items ++ [e]) es)); reflexivity.
Qed.

Lemma catalogue_add_new (w : World) (filename : string) (items : list Entry) (e : Entry) :
  id e ∉ id <$> items ->
  catalogue_add filename e (catalogue_world w filename items)
  = Ok (catalogue_world w filename (items ++ [e])).
Proof.
  intros Hnew. unfold catalogue_add. rewrite catalogue_world_lookup.
  destruct (decide (id e ∈ id <$> items)) as [Hin | _]; [contradiction | ].
  f_equal. apply catalogue_world_again.
Qed.

Lemma catalogue_add_repeated (w : World) (filename : string) (items : list Entry) (e : Entry) :
  id e ∈ id <$> items ->
  catalogue_add filename e (catalogue_world w filename items) = Raise ValueError.
Proof.
  intros Hin. unfold catalogue_add. rewrite catalogue_world_lookup.
  destruct (decide (id e ∈ id <$> items)) as [_ | Hnew]; [reflexivity | contradiction].
Qed.

Lemma mapM_length {A B} (f : A -> result B) (l : list A) (k : list B) :
  mapM f l = Ok k -> length k = length l.
Proof.
  revert k. induction l as [|x l IH]; intros k.
  - intros [= <-]. reflexivity.
  - cbn [mapM]. destruct (f x) as [y | e]; [ | discriminate].
    cbn [mbind result_bind]. destruct (mapM f l) as [k' | e]; [ | discriminate].
    intros [= <-]. simpl. rewrite (IH k' eq_refl). reflexivity.
Qed.

Lemma entries_of_rows {kwargs} (rows : list (Row kwargs)) (objs : list Model) :
  length objs = length rows ->
  id <$> zip_with entry_of rows objs = row_id <$> rows /\
  criteria <$> zip_with entry_of rows objs = row_criteria <$> rows /\
  obj <$> zip_with entry_of rows objs = objs.
Proof.
  revert objs. induction rows as [|row rows IH]; intros [|o objs] Hlen;
    try discriminate Hlen; [repeat split | ].
  destruct (IH objs ltac:(simpl in Hlen; lia)) as (Hid & Hcrit & Hobj).
  cbn [zip_with fmap list_fmap]. cbn [fmap] in Hid, Hcrit, Hobj.
  rewrite Hid, Hcrit, Hobj. repeat split.
Qed.

Lemma NoDup_snoc_app {A} (l k : list A) (x : A) :
  NoDup (l ++ x :: k) -> (x ∉ l) /\ NoDup ((l ++ [x]) ++ k).
Proof.
  intros Hnd. split.
  - apply NoDup_app in Hnd as (_ & Hdisj & _). intros Hin.
    apply (Hdisj x Hin). apply elem_of_cons. left. reflexivity.
  - rewrite <- app_assoc. exact Hnd.
Qed.

(** The loop over a table whose rows are all accepted and whose ids are
    new: one entry more after each row. *)
Lemma add_rows_accepted {kwargs} (new : kwargs -> result Model) (filename : string)
    (rows : list (Row kwargs)) (objs : list Model) (w : World) (items : list Entry) :
  mapM new (obj_params <$> rows) = Ok objs ->
  NoDup ((id <$> items) ++ (row_id <$> rows)) ->
  add_rows new filename rows (catalogue_world w filename items)
  = (catalogue_worlds w filename items (zip_with entry_of rows objs), None).
Proof.
  revert objs items. induction rows as [|row rows IH]; intros objs items Hobjs Hnd.
  - injection Hobjs as <-. reflexivity.
  - cbn [fmap list_fmap mapM] in Hobjs.
    destruct (new (obj_params row)) as [o | e] eqn:Hnew; [ | discriminate Hobjs].
    cbn [mbind result_bind] in Hobjs.
    destruct (mapM new (obj_params <$> rows)) as [objs' | e] eqn:Hrest; [ | discriminate Hobjs].
    injection Hobjs as <-.
    cbn [fmap list_fmap] in Hnd. apply NoDup_snoc_app in Hnd as [Hnew_id Hnd].
    cbn [add_rows]. rewrite Hnew. unfold then_, step.
    fold (entry_of row o).
    rewrite (catalogue_add_new w filename items (entry_of row o) Hnew_id).
    change (last_world (catalogue_world w filename items)
              [catalogue_world w filename (items ++ [entry_of row o])])
      with (catalogue_world w filename (items ++ [entry_of row o])).
    rewrite (IH objs' (items ++ [entry_of row o]) eq_refl);
      [reflexivity | rewrite fmap_app; exact Hnd].
Qed.

(** The loop stops at the first row that the constructor refuses, with
    the entries of the rows before it stored. *)
Lemma add_rows_refused {kwargs} (new : kwargs -> result Model) (filename : string)
    (good : list (Row kwargs)) (bad : Row kwargs) (rest : list (Row kwargs))
    (objs : list Model) (e : exn) (w : World) (items : list Entry) :
  mapM new (obj_params <$> good) = Ok objs ->
  NoDup ((id <$> items) ++ (row_id <$> good)) ->
  new (obj_params bad) = Raise e ->
  add_rows new filename (good ++ bad :: rest) (catalogue_world w filename items)
  = (catalogue_worlds w filename items (zip_with entry_of good objs), Some e).
Proof.
  revert objs items. induction good as [|row good IH]; intros objs items Hobjs Hnd Hbad.
  - injection Hobjs as <-. cbn [app add_rows]. rewrite Hbad. reflexivity.
  - cbn [fmap list_fmap mapM] in Hobjs.
    destruct (new (obj_params row)) as [o | e'] eqn:Hnew; [ | discriminate Hobjs].
    cbn [mbind result_bind] in Hobjs.
    destruct (mapM new (obj_params <$> good)) as [objs' | e'] eqn:Hrest; [ | discriminate Hobjs].
    injection Hobjs as <-.
    cbn [fmap list_fmap] in Hnd. apply NoDup_snoc_app in Hnd as [Hnew_id Hnd].
    cbn [app add_rows]. rewrite Hnew. unfold then_, step.
    fold (entry_of row o).
    rewrite (catalogue_add_new w filename items (entry_of row o) Hnew_id).
    change (last_world (catalogue_world w filename items)
              [catalogue_world w filename (items ++ [entry_of row o])])
      with (catalogue_world w filename (items ++ [entry_of row o])).
    rewrite (IH objs' (items ++ [entry_of row o]) eq_refl);
      [reflexivity | rewrite fmap_app; exact Hnd | exact Hbad].
Qed.

Lemma JSONCatalogue_fresh (filename : string) (w : World) :
  files w !! filename = None ->
  step (JSONCatalogue filename) w = ([catalogue_world w filename []], None).
Proof. intros Hfresh. unfold step, JSONCatalogue. rewrite Hfresh. reflexivity. Qed.

Lemma unlink_catalogue (filename : string) (w : World) (items : list Entry) :
  files w !! filename = None ->
  step (unlink filename) (catalogue_world w filename items) = ([w], None).
Proof.
  intros Hfresh. unfold step, unlink. rewrite catalogue_world_lookup.
  unfold catalogue_world. cbn [files displayed].
  rewrite delete_insert_id by exact Hfresh. rewrite World_eta. reflexivity.
Qed.

Lemma NoDup_two_tables (ids1 ids2 : list string) :
  NoDup (ids1 ++ ids2) -> NoDup (@nil string ++ ids1).
Proof. intros Hnd. apply NoDup_app in Hnd as (Hnd & _ & _). exact Hnd. Qed.

(** Both loops, over tables whose rows are all accepted and whose ids are
    all different. *)
Lemma build_catalogue_accepted screws anchors (filename : string) (w : World)
    (ss aa : list Model) :
  files w !! filename = None ->
  mapM new_screw (obj_params <$> screws) = Ok ss ->
  mapM new_anchor (obj_params <$> anchors) = Ok aa ->
  NoDup ((row_id <$> screws) ++ (row_id <$> anchors)) ->
  build_catalogue screws anchors filename w
  = (catalogue_world w filename []
       :: catalogue_worlds w filename []
            (zip_with entry_of screws ss ++ zip_with entry_of anchors aa),
     None).
Proof.
  intros Hfresh Hss Haa Hnd. unfold build_catalogue.
  change (fun kw => MWoodScrew <$> WoodScrew.new kw) with new_screw.
  change (fun kw => MAnchor <$> Anchor.new kw) with new_anchor.
  unfold then_ at 1. rewrite (JSONCatalogue_fresh filename w Hfresh).
  change (last_world w [catalogue_world w filename []]) with (catalogue_world w filename []).
  unfold then_.
  rewrite (add_rows_accepted new_screw filename screws ss w [] Hss (NoDup_two_tables _ _ Hnd)).
  rewrite last_world_catalogue_worlds. cbn [app].
  rewrite (add_rows_accepted new_anchor filename anchors aa w _ Haa).
  - rewrite catalogue_worlds_app. reflexivity.
  - destruct (entries_of_rows screws ss) as (-> & _ & _); [ | exact Hnd].
    rewrite (mapM_length _ _ _ Hss). apply length_fmap.
Qed.

(** The whole run over such tables: the catalogue's file is created,
    filled and unlinked again, and the last section runs in the world that
    the script started in. *)
Lemma script_steps_accepted screws anchors (env_name filename : string)
    (random_coords : CoordSystem) (w : World) (ss aa : list Model) :
  files w !! filename = None ->
  mapM new_screw (obj_params <$> screws) = Ok ss ->
  mapM new_anchor (obj_params <$> anchors) = Ok aa ->
  NoDup ((row_id <$> screws) ++ (row_id <$> anchors)) ->
  script_steps screws anchors env_name filename random_coords w
  = let before :=
      catalogue_world w filename []
      :: catalogue_worlds w filename []
           (zip_with entry_of screws ss ++ zip_with entry_of anchors aa)
      ++ [w] in
    match export_display env_name random_coords w with
    | Ok w' => (before ++ [w'], None)
    | Raise e => (before, Some e)
    end.
Proof.
  intros Hfresh Hss Haa Hnd. unfold script_steps, then_ at 1.
  rewrite (build_catalogue_accepted screws anchors filename w ss aa Hfresh Hss Haa Hnd).
  assert (forall es,
            last_world w (catalogue_world w filename [] :: catalogue_worlds w filename [] es)
            = catalogue_world w filename es) as Hlast.
  { intros es. pose proof (last_world_catalogue_worlds w filename [] es) as H.
    cbn [app] in H. rewrite <- H.
    unfold last_world. rewrite last_cons.
    destruct (last (catalogue_worlds w filename [] es)); reflexivity. }
  rewrite Hlast. unfold then_. rewrite (unlink_catalogue filename w _ Hfresh).
  change (last_world (catalogue_world w filename
                        (zip_with entry_of screws ss ++ zip_with entry_of anchors aa)) [w])
    with w.
  cbv zeta. unfold step. destruct (export_display env_name random_coords w) as [w' | e].
  - f_equal. rewrite app_assoc. reflexivity.
  - rewrite app_nil_r. reflexivity.
Qed.

Lemma script_with_accepted screws anchors (env_name filename : string)
    (random_coords : CoordSystem) (w : World) (ss aa : list Model) :
  files w !! filename = None ->
  mapM new_screw (obj_params <$> screws) = Ok ss ->
  mapM new_anchor (obj_params <$> anchors) = Ok aa ->
  NoDup ((row_id <$> screws) ++ (row_id <$> anchors)) ->
  script_with screws anchors env_name filename random_coords w
  = export_display env_name random_coords w.
Proof.
  intros Hfresh Hss Haa Hnd. unfold script_with.
  rewrite (script_steps_accepted screws anchors env_name filename random_coords w ss aa
             Hfresh Hss Haa Hnd).
  cbv zeta. destruct (export_display env_name random_coords w) as [w' | e]; [ | reflexivity].
  unfold outcome, last_world. rewrite last_snoc. reflexivity.
Qed.

Lemma script_ids_NoDup : NoDup ((row_id <$> screws) ++ (row_id <$> anchors)).
Proof.
  cbn.
  repeat (apply NoDup_cons; split;
          [intros H; apply list_elem_of_In in H; simpl in H; intuition discriminate | ]).
  apply NoDup_nil_2.
Qed.

Lemma script_eq (env_name filename : string) (random_coords : CoordSystem) (w : World) :
  files w !! filename = None ->
  script env_name filename random_coords w = export_display env_name random_coords w.
Proof.
  intros Hfresh.
  exact (script_with_accepted screws anchors env_name filename random_coords w _ _
           Hfresh eq_refl eq_refl script_ids_NoDup).
Qed.

Lemma export_display_cmdline (random_coords : CoordSystem) (w : World) :
  export_display "cmdline" random_coords w
  = Ok {| files := exported_files w; displayed := displayed w |}.
Proof. reflexivity. Qed.

Lemma export_display_freecad (random_coords : CoordSystem) (w : World) :
  export_display "freecad" random_coords w
  = Ok {| files := files w;
          displayed := displayed w ++
            [MConnectedPlanks {| ConnectedPlanks.world_coords := Some random_coords |}] |}.
Proof. reflexivity. Qed.

Lemma export_display_other (env_name : string) (random_coords : CoordSystem) (w : World) :
  env_name <> "cmdline" -> env_name <> "freecad" ->
  export_display env_name random_coords w = Ok w.
Proof.
  intros Hc Hf. unfold export_display.
  apply String.eqb_neq in Hc, Hf.
  change (WoodScrew.new WoodScrew.no_kwargs) with (Ok WoodScrew.defaults).
  change (Anchor.new Anchor.no_kwargs) with (Ok Anchor.defaults).
  cbn [mbind result_bind _Together.new]. rewrite Hc, Hf. reflexivity.
Qed.

(** C2: what the script exports and displays depends on [env_name]
    only.  For ['cmdline'] it writes the three files [screw.gltf],
    [anchor.gltf] and [together.gltf], of a default wood screw, a default
    anchor and the assembly of both, and displays nothing; for ['freecad']
    it writes no file and displays the connected planks; for any other
    value it does neither; and it never does both. *)
Theorem export_or_display (env_name catalogue_filename : string)
    (random_coords : CoordSystem) (w : World) :
  files w !! catalogue_filename = None ->
  let run := script env_name catalogue_filename random_coords w in
  (env_name = "cmdline" ->
   run = Ok {| files :=
                 <["together.gltf" := GltfFile (MTogether _Together.Build_t)]>
                   (<["anchor.gltf" := GltfFile (MAnchor Anchor.defaults)]>
                      (<["screw.gltf" := GltfFile (MWoodScrew WoodScrew.defaults)]>
                         (files w)));
               displayed := displayed w |}) /\
  (env_name = "freecad" ->
   run = Ok {| files := files w;
               displayed :=
                 displayed w ++
                 [MConnectedPlanks
                    {| ConnectedPlanks.world_coords := Some random_coords |}] |}) /\
  (env_name <> "cmdline" -> env_name <> "freecad" -> run = Ok w) /\
  (WoodScrew.new WoodScrew.no_kwargs = Ok WoodScrew.defaults /\
   Anchor.new Anchor.no_kwargs = Ok Anchor.defaults) /\
  (exists w', run = Ok w' /\ (files w' = files w \/ displayed w' = displayed w)).
Proof.
  intros Hfresh run. subst run. rewrite script_eq by exact Hfresh.
  split; [intros ->; apply export_display_cmdline | ].
  split; [intros ->; apply export_display_freecad | ].
  split; [apply export_display_other | ].
  split; [split; reflexivity | ].
  destruct (decide (env_name = "cmdline")) as [-> | Hc].
  { eexists. split; [apply export_display_cmdline | right; reflexivity]. }
  destruct (decide (env_name = "freecad")) as [-> | Hf].
  { eexists. split; [apply export_display_freecad | left; reflexivity]. }
  exists w. split; [apply export_display_other; assumption | left; reflexivity].
Qed.

Lemma export_or_display_witness :
  script "cmdline" "/tmp/tmpk3x9qd" (CoordSystem_at (vec 1 2 3))
         {| files := ∅; displayed := [] |}
  = Ok {| files :=
            {[ "screw.gltf" := GltfFile (MWoodScrew WoodScrew.defaults);
               "anchor.gltf" := GltfFile (MAnchor Anchor.defaults);
               "together.gltf" := GltfFile (MTogether _Together.Build_t) ]};
          displayed := [] |}.
Proof.
  destruct (export_or_display "cmdline" "/tmp/tmpk3x9qd" (CoordSystem_at (vec 1 2 3))
              {| files := ∅; displayed := [] |} (lookup_empty _)) as [Hcmd _].
  rewrite (Hcmd eq_refl). reflexivity.
Defined.





(** ** Parameters outside their declared constraint *)

Lemma cast_eq {A} (type : A -> result A) (excluded : A -> bool) (default : A)
    (kwarg : option A) :
  (forall v, type v = if excluded v then Raise ParameterError else Ok v) ->
  cast type default kwarg
  = if given excluded kwarg then Raise ParameterError else Ok (value_of default kwarg).
Proof. intros Htype. destruct kwarg as [v|]; simpl; [apply Htype | reflexivity]. Qed.

Lemma PositiveFloat_eq (v : float) :
  PositiveFloat v = if negative v then Raise ParameterError else Ok v.
Proof. reflexivity. Qed.

Lemma FloatRange_eq (lo hi v : float) :
  FloatRange lo hi v = if outside lo hi v then Raise ParameterError else Ok v.
Proof. unfold FloatRange, outside. destruct (v <? lo)%float, (hi <? v)%float; reflexivity. Qed.

Lemma IntRange_eq (lo hi v : Z) :
  IntRange lo hi v = if outsideZ lo hi v then Raise ParameterError else Ok v.
Proof. unfold IntRange, outsideZ. destruct (v <? lo)%Z, (hi <? v)%Z; reflexivity. Qed.

#[local] Ltac by_cases_on_given :=
  repeat match goal with
         | |- context [given ?f ?o] =>
             let b := fresh "b" in generalize (given f o); intros b; destruct b
         end;
  cbn [mbind result_bind mret result_ret orb is_ok].

Lemma WoodScrew_new_cases (kw : WoodScrew.kwargs) :
  (WoodScrew_refused kw = true -> WoodScrew.new kw = Raise ParameterError) /\
  (WoodScrew_refused kw = false -> WoodScrew_too_short kw = true ->
   WoodScrew.new kw = Raise ValueError) /\
  (WoodScrew_refused kw = false -> WoodScrew_too_short kw = false ->
   is_ok (WoodScrew.new kw) = true).
Proof.
  unfold WoodScrew.new, WoodScrew_refused, WoodScrew_too_short.
  rewrite !(cast_eq _ _ _ _ PositiveFloat_eq).
  by_cases_on_given; try (repeat split; congruence).
  unfold WoodScrew.initialize_parameters, WoodScrew.MaleFastenerPart_initialize_parameters.
  cbn [WoodScrew.length WoodScrew.neck_length].
  match goal with |- context [(?l <=? ?nl)%float] => destruct (l <=? nl)%float end;
    repeat split; congruence.
Qed.

Lemma Anchor_new_cases (kw : Anchor.kwargs) :
  (Anchor_refused kw = true -> Anchor.new kw = Raise ParameterError) /\
  (Anchor_refused kw = false -> is_ok (Anchor.new kw) = true).
Proof.
  unfold Anchor.new, Anchor_refused.
  rewrite !(cast_eq _ _ _ _ PositiveFloat_eq), (cast_eq _ _ _ _ (IntRange_eq 4 200)),
    (cast_eq _ _ _ _ (FloatRange_eq 0.5 0.99)), (cast_eq _ _ _ _ (FloatRange_eq 0.01 0.8)).
  by_cases_on_given; split; congruence.
Qed.

Lemma WoodPanel_new_cases (kw : WoodPanel.kwargs) :
  (WoodPanel_refused kw = true -> WoodPanel.new kw = Raise ParameterError) /\
  (WoodPanel_refused kw = false -> is_ok (WoodPanel.new kw) = true).
Proof.
  unfold WoodPanel.new, WoodPanel_refused.
  rewrite !(cast_eq _ _ _ _ PositiveFloat_eq).
  by_cases_on_given; split; congruence.
Qed.

Lemma is_ok_new_screw (kw : WoodScrew.kwargs) :
  is_ok (new_screw kw) = is_ok (WoodScrew.new kw).
Proof. unfold new_screw. destruct (WoodScrew.new kw); reflexivity. Qed.

Lemma is_ok_new_anchor (kw : Anchor.kwargs) :
  is_ok (new_anchor kw) = is_ok (Anchor.new kw).
Proof. unfold new_anchor. destruct (Anchor.new kw); reflexivity. Qed.

Lemma new_screw_raise (kw : WoodScrew.kwargs) (e : exn) :
  WoodScrew.new kw = Raise e -> new_screw kw = Raise e.
Proof. unfold new_screw. intros ->. reflexivity. Qed.

Lemma new_anchor_raise (kw : Anchor.kwargs) (e : exn) :
  Anchor.new kw = Raise e -> new_anchor kw = Raise e.
Proof. unfold new_anchor. intros ->. reflexivity. Qed.

Lemma mapM_accepted {A B} (f : A -> result B) (l : list A) :
  Forall (fun x => is_ok (f x) = true) l ->
  exists objs, mapM f l = Ok objs /\ length objs = length l.
Proof.
  induction 1 as [|x l Hx _ IH].
  - exists []. split; reflexivity.
  - destruct IH as (objs & Hobjs & Hlen). cbn [mapM].
    destruct (f x) as [o | e]; [ | discriminate Hx].
    exists (o :: objs). cbn [mbind result_bind]. rewrite Hobjs.
    split; [reflexivity | simpl; congruence].
Qed.

Lemma screws_accepted (rows : list (Row WoodScrew.kwargs)) :
  Forall (fun row => is_ok (WoodScrew.new (obj_params row)) = true) rows ->
  exists objs, mapM new_screw (obj_params <$> rows) = Ok objs /\ length objs = length rows.
Proof.
  intros Hrows.
  destruct (mapM_accepted new_screw (obj_params <$> rows)) as (objs & Hobjs & Hlen).
  - apply Forall_fmap. eapply Forall_impl; [exact Hrows | ].
    intros row Hrow. change (is_ok (new_screw (obj_params row)) = true).
    rewrite is_ok_new_screw. exact Hrow.
  - exists objs. rewrite length_fmap in Hlen. auto.
Qed.

Lemma anchors_accepted (rows : list (Row Anchor.kwargs)) :
  Forall (fun row => is_ok (Anchor.new (obj_params row)) = true) rows ->
  exists objs, mapM new_anchor (obj_params <$> rows) = Ok objs /\ length objs = length rows.
Proof.
  intros Hrows.
  destruct (mapM_accepted new_anchor (obj_params <$> rows)) as (objs & Hobjs & Hlen).
  - apply Forall_fmap. eapply Forall_impl; [exact Hrows | ].
    intros row Hrow. change (is_ok (new_anchor (obj_params row)) = true).
    rewrite is_ok_new_anchor. exact Hrow.
  - exists objs. rewrite length_fmap in Hlen. auto.
Qed.

(** The run stops at the first screw that the constructor refuses: the
    catalogue's file was created and holds the entries of the rows before
    it; nothing was unlinked, exported or displayed. *)
Lemma script_steps_refused_screw (good : list (Row WoodScrew.kwargs)) (bad : Row WoodScrew.kwargs)
    (rest : list (Row WoodScrew.kwargs)) anchors (env_name filename : string)
    (random_coords : CoordSystem) (w : World) (objs : list Model) (e : exn) :
  files w !! filename = None ->
  mapM new_screw (obj_params <$> good) = Ok objs ->
  NoDup (row_id <$> good) ->
  new_screw (obj_params bad) = Raise e ->
  script_steps (good ++ bad :: rest) anchors env_name filename random_coords w
  = (catalogue_world w filename []
       :: catalogue_worlds w filename [] (zip_with entry_of good objs),
     Some e).
Proof.
  intros Hfresh Hobjs Hnd Hbad. unfold script_steps, then_ at 1, build_catalogue.
  change (fun kw => MWoodScrew <$> WoodScrew.new kw) with new_screw.
  unfold then_ at 1. rewrite (JSONCatalogue_fresh filename w Hfresh).
  change (last_world w [catalogue_world w filename []]) with (catalogue_world w filename []).
  unfold then_ at 1.
  rewrite (add_rows_refused new_screw filename good bad rest objs e w [] Hobjs Hnd Hbad).
  reflexivity.
Qed.

(** The same for the first anchor that is refused, after every screw
    was stored. *)
Lemma script_steps_refused_anchor screws (good : list (Row Anchor.kwargs))
    (bad : Row Anchor.kwargs) (rest : list (Row Anchor.kwargs)) (env_name filename : string)
    (random_coords : CoordSystem) (w : World) (ss objs : list Model) (e : exn) :
  files w !! filename = None ->
  mapM new_screw (obj_params <$> screws) = Ok ss ->
  mapM new_anchor (obj_params <$> good) = Ok objs ->
  NoDup ((row_id <$> screws) ++ (row_id <$> good)) ->
  new_anchor (obj_params bad) = Raise e ->
  script_steps screws (good ++ bad :: rest) env_name filename random_coords w
  = (catalogue_world w filename []
       :: catalogue_worlds w filename []
            (zip_with entry_of screws ss ++ zip_with entry_of good objs),
     Some e).
Proof.
  intros Hfresh Hss Hobjs Hnd Hbad. unfold script_steps, then_ at 1, build_catalogue.
  change (fun kw => MWoodScrew <$> WoodScrew.new kw) with new_screw.
  change (fun kw => MAnchor <$> Anchor.new kw) with new_anchor.
  unfold then_ at 1. rewrite (JSONCatalogue_fresh filename w Hfresh).
  change (last_world w [catalogue_world w filename []]) with (catalogue_world w filename []).
  unfold then_ at 1.
  rewrite (add_rows_accepted new_screw filename screws ss w [] Hss (NoDup_two_tables _ _ Hnd)).
  rewrite last_world_catalogue_worlds. cbn [app].
  rewrite (add_rows_refused new_anchor filename good bad rest objs e w _ Hobjs); [ | | exact Hbad].
  - rewrite catalogue_worlds_app. reflexivity.
  - destruct (entries_of_rows screws ss) as (-> & _ & _); [ | exact Hnd].
    rewrite (mapM_length _ _ _ Hss). apply length_fmap.
Qed.

(** C5 as stated fails twice: a screw with [neck_length = 0], which is
    not positive, is constructed; and a screw with [neck_length = 60],
    which its declared constraint admits, is refused by a check that is
    not declared with the parameter (the default length is 50). *)
Lemma zero_accepted_and_long_neck_refused :
  is_ok (WoodScrew.new (with_neck_length 0)) = true /\
  WoodScrew_refused (with_neck_length 60) = false /\
  WoodScrew.new (with_neck_length 60) = Raise ValueError.
Proof. repeat split; vm_compute; reflexivity. Qed.

(** C5, amended: a constructor raises [ParameterError] exactly when a
    keyword argument that was given is excluded by the constraint declared
    for its parameter (a float below zero, a point count outside
    [4, 200], a ratio below or above its range); the screw's constructor
    raises [ValueError] when no argument is excluded but the length does
    not exceed the neck length; every other construction succeeds.  The
    script handles no exception: the error of the first refused row ends
    it. *)
Theorem constructor_checks :
  (forall kw,
     (WoodScrew_refused kw = true -> WoodScrew.new kw = Raise ParameterError) /\
     (WoodScrew_refused kw = false -> WoodScrew_too_short kw = true ->
      WoodScrew.new kw = Raise ValueError) /\
     (WoodScrew_refused kw = false -> WoodScrew_too_short kw = false ->
      is_ok (WoodScrew.new kw) = true)) /\
  (forall kw,
     (Anchor_refused kw = true -> Anchor.new kw = Raise ParameterError) /\
     (Anchor_refused kw = false -> is_ok (Anchor.new kw) = true)) /\
  (forall kw,
     (WoodPanel_refused kw = true -> WoodPanel.new kw = Raise ParameterError) /\
     (WoodPanel_refused kw = false -> is_ok (WoodPanel.new kw) = true)) /\
  (forall good bad rest anchors env_name catalogue_filename random_coords w e,
     files w !! catalogue_filename = None ->
     Forall (fun row => is_ok (WoodScrew.new (obj_params row)) = true) good ->
     NoDup (row_id <$> good) ->
     WoodScrew.new (obj_params bad) = Raise e ->
     script_with (good ++ bad :: rest) anchors env_name catalogue_filename random_coords w
     = Raise e) /\
  (forall screws good bad rest env_name catalogue_filename random_coords w e,
     files w !! catalogue_filename = None ->
     Forall (fun row => is_ok (WoodScrew.new (obj_params row)) = true) screws ->
     Forall (fun row => is_ok (Anchor.new (obj_params row)) = true) good ->
     NoDup ((row_id <$> screws) ++ (row_id <$> good)) ->
     Anchor.new (obj_params bad) = Raise e ->
     script_with screws (good ++ bad :: rest) env_name catalogue_filename random_coords w
     = Raise e).
Proof.
  split; [exact WoodScrew_new_cases | ].
  split; [exact Anchor_new_cases | ].
  split; [exact WoodPanel_new_cases | ].
  split.
  - intros good bad rest anchors env_name fn rc w e Hfresh Hgood Hnd Hbad.
    destruct (screws_accepted good Hgood) as (objs & Hobjs & _).
    unfold script_with.
    rewrite (script_steps_refused_screw good bad rest anchors env_name fn rc w objs e
               Hfresh Hobjs Hnd (new_screw_raise _ _ Hbad)).
    reflexivity.
  - intros screws good bad rest env_name fn rc w e Hfresh Hscrews Hgood Hnd Hbad.
    destruct (screws_accepted screws Hscrews) as (ss & Hss & _).
    destruct (anchors_accepted good Hgood) as (objs & Hobjs & _).
    unfold script_with.
    rewrite (script_steps_refused_anchor screws good bad rest env_name fn rc w ss objs e
               Hfresh Hss Hobjs Hnd (new_anchor_raise _ _ Hbad)).
    reflexivity.
Qed.

(** The values of a point count, a ratio and a neck length at and beyond
    the ends of their constraints. *)
Example refused_examples :
  Anchor.new (with_spline_point_count 3) = Raise ParameterError /\
  Anchor.new (with_spline_point_count 201) = Raise ParameterError /\
  is_ok (Anchor.new (with_spline_point_count 4)) = true /\
  is_ok (Anchor.new (with_spline_point_count 200)) = true /\
  Anchor.new (ratio_kwargs 0.49 0.7) = Raise ParameterError /\
  Anchor.new (ratio_kwargs 1 0.7) = Raise ParameterError /\
  WoodScrew.new (with_neck_length (-3)) = Raise ParameterError /\
  is_ok (WoodScrew.new (with_neck_length 0)) = true /\
  WoodScrew.new (with_neck_length 50) = Raise ValueError /\
  is_ok (WoodScrew.new (with_neck_length 49.5)) = true.
Proof. repeat split; vm_compute; reflexivity. Qed.

(** A table with a refused row stops the script before anything is
    exported or displayed. *)
Example script_with_refused_row :
  script_with
    [ {| row_id := "screw_0"; obj_params := with_neck_length (-1); row_criteria := [] |} ]
    anchors "cmdline" "/tmp/tmpk3x9qd" (CoordSystem_at (vec 0 0 0))
    {| files := ∅; displayed := [] |}
  = Raise ParameterError.
Proof. reflexivity. Qed.

(** * Further properties *)

(** ** The selector *)

(** X1: [Selector.get_components] raises [IndexError] exactly when the
    effect list is empty.  On a non-empty list it can only raise the
    screw constructor's [ParameterError], when a length comes out negative,
    or its [ValueError], when the screw would be no longer than its neck,
    as it is when the last effect has length zero.  The components it
    returns are the default anchor and a screw with the default
    [neck_exposed] and [bore_diam]. *)
Theorem get_components_outcomes (eval : list Effect) :
  (EasyInstallFastener.Selector.get_components eval = Raise IndexError <-> eval = []) /\
  (forall e, EasyInstallFastener.Selector.get_components eval = Raise e ->
     e = IndexError \/ e = ParameterError \/ e = ValueError) /\
  (forall e_first e_last,
     head eval = Some e_first -> last eval = Some e_last ->
     let neck_length :=
       (vabs (vsub (start_point e_last) (start_point e_first))
        - EasyInstallFastener.Selector.anchor_slack Anchor.defaults)%float in
     let thread_length :=
       (vabs (vsub (end_point e_last) (start_point e_last)) * 0.8)%float in
     (EasyInstallFastener.Selector.get_components eval = Raise ParameterError <->
      (neck_length <? 0)%float = true \/ (neck_length + thread_length <? 0)%float = true) /\
     (EasyInstallFastener.Selector.get_components eval = Raise ValueError <->
      (neck_length <? 0)%float = false /\ (neck_length + thread_length <? 0)%float = false /\
      (neck_length + thread_length <=? neck_length)%float = true)) /\
  (forall c, EasyInstallFastener.Selector.get_components eval = Ok c ->
     let s := EasyInstallFastener.Selector.screw c in
     EasyInstallFastener.Selector.anchor c = Anchor.defaults /\
     WoodScrew.neck_exposed s = WoodScrew.neck_exposed WoodScrew.defaults /\
     WoodScrew.bore_diam s = WoodScrew.bore_diam WoodScrew.defaults).
Proof.
  destruct eval as [|e0 eval].
  { split; [split; reflexivity | split; [ | split]].
    - intros e [= <-]. auto.
    - intros e_first e_last [=].
    - discriminate. }
  destruct (last (e0 :: eval)) as [e_last | ] eqn:Hlast;
    [ | apply last_None in Hlast; discriminate Hlast].
  pose proof (get_components_eq (e0 :: eval) e0 e_last eq_refl Hlast) as Heq.
  cbv zeta in Heq. rewrite WoodScrew_new_lengths in Heq.
  split; [ | split; [ | split]].
  - rewrite Heq. split; [ | discriminate].
    repeat match goal with |- context [if ?b then _ else _] => destruct b end; discriminate.
  - intros e. rewrite Heq.
    repeat match goal with |- context [if ?b then _ else _] => destruct b end;
      cbn [mbind result_bind mret result_ret]; intros [= <-]; auto.
  - intros e_first e_last' [= <-] [= <-]. cbv zeta. rewrite Heq.
    repeat match goal with |- context [if ?b then _ else _] => destruct b end;
      cbn [mbind result_bind mret result_ret];
      (split; split; first [ discriminate | reflexivity | tauto
                            | intros [H | H]; discriminate H
                            | intros (H1 & H2 & H3); discriminate
                            | auto ]).
  - intros c. rewrite Heq.
    repeat match goal with |- context [if ?b then _ else _] => destruct b end;
      cbn [mbind result_bind mret result_ret]; intros [= <-]. repeat split.
Qed.

Lemma get_components_outcomes_zero_length_effect :
  EasyInstallFastener.Selector.get_components
    [example_effect 0 15 0; example_effect 15 15 1] = Raise ValueError.
Proof. reflexivity. Qed.

(** X2: when the first and the last effect start at the same point, as
    they do in a list of one effect, no components are selected: the neck
    length comes out as minus the anchor's slack and the screw's
    constructor raises [ParameterError]. *)
Theorem get_components_needs_distance (eval : list Effect) (e_first e_last : Effect) :
  head eval = Some e_first ->
  last eval = Some e_last ->
  vabs (vsub (start_point e_last) (start_point e_first)) = 0%float ->
  EasyInstallFastener.Selector.get_components eval = Raise ParameterError.
Proof.
  intros Hfirst Hlast Hzero. unfold EasyInstallFastener.Selector.get_components.
  change (Anchor.new Anchor.no_kwargs) with (Ok Anchor.defaults).
  rewrite (getitem_last _ _ Hlast), (getitem_first _ _ Hfirst).
  cbn [mbind result_bind]. rewrite Hzero. reflexivity.
Qed.

Lemma get_components_needs_distance_witness :
  EasyInstallFastener.Selector.get_components [example_effect 0 15 0]
  = Raise ParameterError.
Proof.
  apply (get_components_needs_distance [example_effect 0 15 0]
           (example_effect 0 15 0) (example_effect 0 15 0)); reflexivity.
Defined.

(** ** The applicator *)






(** X5: the cuts depend on the screw only through [bore_diam],
    [neck_length], [length] and [thread], and on the anchor only through
    [height] and [diameter]: components that agree on these cut the same
    solids from the same parts. *)
Theorem apply_alterations_reads_cutters
    (coords_sub : CoordSystem -> CoordSystem -> CoordSystem)
    (screw1 screw2 : WoodScrew.t) (screw_world_coords : CoordSystem)
    (anchor1 anchor2 : Anchor.t) (anchor_world_coords : CoordSystem)
    (eval : list Effect) (heap : gmap nat PartObj) :
  same_screw_cutter screw1 screw2 ->
  same_anchor_cutter anchor1 anchor2 ->
  EasyInstallFastener.Applicator.apply_alterations
    coords_sub screw1 screw_world_coords anchor1 anchor_world_coords eval heap
  = EasyInstallFastener.Applicator.apply_alterations
      coords_sub screw2 screw_world_coords anchor2 anchor_world_coords eval heap.
Proof.
  intros (Hbd & Hnl & Hl & Hth) (Hh & Hd).
  unfold EasyInstallFastener.Applicator.apply_alterations.
  assert (call WoodScrew.make_cutter screw1 = call WoodScrew.make_cutter screw2) as ->.
  { unfold call, WoodScrew.make_cutter, attr, mbind, method_bind, mret, method_ret.
    cbn [fst]. rewrite Hbd, Hnl, Hl, Hth. reflexivity. }
  assert (call Anchor.make_cutter anchor1 = call Anchor.make_cutter anchor2) as ->.
  { unfold call, Anchor.make_cutter, attr, mbind, method_bind, mret, method_ret.
    cbn [fst]. rewrite Hh, Hd. reflexivity. }
  reflexivity.
Qed.

Lemma apply_alterations_reads_cutters_witness :
  EasyInstallFastener.Applicator.apply_alterations example_coords_sub
    WoodScrew.defaults (CoordSystem_at (vec 0 0 20))
    Anchor.defaults (CoordSystem_at (vec 0 0 10))
    [example_effect 0 15 0; example_effect 15 30 1]
    {[ 0 := example_panel; 1 := example_panel ]}
  = EasyInstallFastener.Applicator.apply_alterations example_coords_sub
      {| WoodScrew.head := WoodScrew.default_head;
         WoodScrew.drive := WoodScrew.default_drive;
         WoodScrew.thread := WoodScrew.default_thread;
         WoodScrew.neck_diam := 3; WoodScrew.neck_length := 40;
         WoodScrew.length := 50; WoodScrew.neck_exposed := 5;
         WoodScrew.bore_diam := 6 |}
      (CoordSystem_at (vec 0 0 20))
      {| Anchor.drive := None; Anchor.diameter := 10; Anchor.height := 5;
         Anchor.neck_diameter := 3; Anchor.head_diameter := 4.5;
         Anchor.spline_point_count := 50; Anchor.ratio_start := 0.9;
         Anchor.ratio_end := 0.5 |}
      (CoordSystem_at (vec 0 0 10))
      [example_effect 0 15 0; example_effect 15 30 1]
      {[ 0 := example_panel; 1 := example_panel ]}.
Proof.
  apply apply_alterations_reads_cutters.
  - repeat split.
  - repeat split.
Defined.

(** ** The spline of the wedge *)

Lemma spline_steps_checked_true : spline_steps_checked = true.
Proof. vm_compute. reflexivity. Qed.

(** X6: for every point count in the declared range [4, 200], the angles
    of the spline points and their interpolation parameters [i / float(n)]
    increase strictly from one point to the next; the first parameter is
    positive and the last is exactly 1, so that the last radius is
    [start_r + (end_r - start_r) * 1]; and the last angle
    [n * (pi / n)] is [math.pi] up to one unit in the last place, on
    either side. *)
Theorem spline_steps (n : Z) :
  (4 <= n <= 200)%Z ->
  (forall i, (1 <= i < n)%Z ->
     (Anchor.spline_angle n i <? Anchor.spline_angle n (i + 1))%float = true /\
     (of_int i / of_int n <? of_int (i + 1) / of_int n)%float = true) /\
  (0 <? of_int 1 / of_int n)%float = true /\
  (of_int n / of_int n =? 1)%float = true /\
  (next_down pi <=? Anchor.spline_angle n n)%float = true /\
  (Anchor.spline_angle n n <=? next_up pi)%float = true.
Proof.
  intros Hn. pose proof spline_steps_checked_true as H. unfold spline_steps_checked in H.
  rewrite forallb_forall in H. specialize (H n (range_In 4 201 n ltac:(lia))).
  rewrite !andb_true_iff in H. destruct H as ((((Hsteps & Hfirst) & Hlast) & Hdown) & Hup).
  repeat split; try assumption;
    rewrite forallb_forall in Hsteps;
    specialize (Hsteps i (range_In 1 n i ltac:(lia)));
    apply andb_true_iff in Hsteps; tauto.
Qed.

Lemma spline_steps_witness :
  (Anchor.spline_angle 10 10 =? pi)%float = true /\
  (pi <? Anchor.spline_angle 25 25)%float = true /\
  (Anchor.spline_angle 75 75 <? pi)%float = true /\
  (Anchor.spline_angle 25 25 <=? next_up pi)%float = true.
Proof.
  split; [reflexivity | split; [reflexivity | split; [reflexivity | ]]].
  apply (spline_steps 25). lia.
Defined.

(** ** The catalogue *)

(** X7: for any two tables whose rows the constructors accept and whose
    ids are all different, and a fresh file name, the two loops go through
    one world for each row, in which the catalogue's file holds one entry
    more: the screws before the anchors and each table in its own order,
    every entry with the id and the criteria of its row; nothing else on
    disk changes and nothing is displayed. *)
Theorem build_catalogue_entries (screws : list (Row WoodScrew.kwargs))
    (anchors : list (Row Anchor.kwargs)) (catalogue_filename : string) (w : World) :
  files w !! catalogue_filename = None ->
  Forall (fun row => is_ok (WoodScrew.new (obj_params row)) = true) screws ->
  Forall (fun row => is_ok (Anchor.new (obj_params row)) = true) anchors ->
  NoDup ((row_id <$> screws) ++ (row_id <$> anchors)) ->
  exists entries,
    build_catalogue screws anchors catalogue_filename w
    = (catalogue_world w catalogue_filename []
         :: catalogue_worlds w catalogue_filename [] entries, None) /\
    outcome w (build_catalogue screws anchors catalogue_filename w)
    = Ok (catalogue_world w catalogue_filename entries) /\
    id <$> entries = (row_id <$> screws) ++ (row_id <$> anchors) /\
    criteria <$> entries = (row_criteria <$> screws) ++ (row_criteria <$> anchors) /\
    length entries = length screws + length anchors.
Proof.
  intros Hfresh Hscrews Hanchors Hnd.
  destruct (screws_accepted screws Hscrews) as (ss & Hss & Hlen_s).
  destruct (anchors_accepted anchors Hanchors) as (aa & Haa & Hlen_a).
  destruct (entries_of_rows screws ss Hlen_s) as (Hid_s & Hcrit_s & _).
  destruct (entries_of_rows anchors aa Hlen_a) as (Hid_a & Hcrit_a & _).
  exists (zip_with entry_of screws ss ++ zip_with entry_of anchors aa).
  rewrite (build_catalogue_accepted screws anchors catalogue_filename w ss aa
             Hfresh Hss Haa Hnd).
  split; [reflexivity | split].
  - unfold outcome. f_equal.
    pose proof (last_world_catalogue_worlds w catalogue_filename []
                  (zip_with entry_of screws ss ++ zip_with entry_of anchors aa)) as H.
    cbn [app] in H. rewrite <- H. unfold last_world. rewrite last_cons.
    destruct (last (catalogue_worlds w catalogue_filename [] _)); reflexivity.
  - rewrite !fmap_app, Hid_s, Hid_a, Hcrit_s, Hcrit_a.
    split; [reflexivity | split; [reflexivity | ]].
    rewrite length_app, <- (length_fmap id (zip_with _ screws _)),
      <- (length_fmap id (zip_with _ anchors _)), Hid_s, Hid_a, !length_fmap.
    reflexivity.
Qed.

Lemma build_catalogue_entries_witness :
  exists entries,
    outcome {| files := ∅; displayed := [] |}
      (build_catalogue screws (rev anchors) "/tmp/tmpk3x9qd" {| files := ∅; displayed := [] |})
    = Ok {| files := {[ "/tmp/tmpk3x9qd" := CatalogueFile entries ]}; displayed := [] |} /\
    id <$> entries = ["screw_30"; "screw_50"; "anchor_15"; "anchor_10"].
Proof.
  destruct (build_catalogue_entries screws (rev anchors) "/tmp/tmpk3x9qd"
              {| files := ∅; displayed := [] |} (lookup_empty _))
    as (entries & _ & Hrun & Hid & _).
  - repeat constructor.
  - repeat constructor.
  - cbn.
    repeat (apply NoDup_cons; split;
            [intros H; apply list_elem_of_In in H; simpl in H; intuition discriminate | ]).
    apply NoDup_nil_2.
  - exists entries. split; [exact Hrun | exact Hid].
Defined.

(** A repeated id stops the loops with the catalogue's [ValueError]. *)
Lemma build_catalogue_repeated_id :
  outcome {| files := ∅; displayed := [] |}
    (build_catalogue (screws ++ screws) anchors "/tmp/tmpk3x9qd"
       {| files := ∅; displayed := [] |})
  = Raise ValueError.
Proof. reflexivity. Qed.

(** ** What a refused row leaves behind *)

(** X8: the script unlinks the catalogue's file only after both loops and
    handles no exception.  So when the constructor refuses a row, after
    rows that were accepted under ids that are all different, the run ends
    with the constructor's exception in a world where the file is still on
    disk and holds exactly the entries of the rows before the refused one;
    nothing is exported or displayed. *)
Theorem refused_row_leaves_catalogue (env_name catalogue_filename : string)
    (random_coords : CoordSystem) (w : World) :
  files w !! catalogue_filename = None ->
  (forall good bad rest anchors objs e,
     mapM new_screw (obj_params <$> good) = Ok objs ->
     NoDup (row_id <$> good) ->
     WoodScrew.new (obj_params bad) = Raise e ->
     let run :=
       script_steps (good ++ bad :: rest) anchors env_name catalogue_filename random_coords w in
     snd run = Some e /\
     last_world w (fst run) = catalogue_world w catalogue_filename (zip_with entry_of good objs) /\
     id <$> zip_with entry_of good objs = row_id <$> good /\
     Forall (fun w' => displayed w' = displayed w /\
                       forall name, name <> catalogue_filename ->
                                    files w' !! name = files w !! name) (fst run)) /\
  (forall screws good bad rest ss objs e,
     mapM new_screw (obj_params <$> screws) = Ok ss ->
     mapM new_anchor (obj_params <$> good) = Ok objs ->
     NoDup ((row_id <$> screws) ++ (row_id <$> good)) ->
     Anchor.new (obj_params bad) = Raise e ->
     let run :=
       script_steps screws (good ++ bad :: rest) env_name catalogue_filename random_coords w in
     snd run = Some e /\
     last_world w (fst run)
     = catalogue_world w catalogue_filename
         (zip_with entry_of screws ss ++ zip_with entry_of good objs) /\
     id <$> (zip_with entry_of screws ss ++ zip_with entry_of good objs)
     = (row_id <$> screws) ++ (row_id <$> good) /\
     Forall (fun w' => displayed w' = displayed w /\
                       forall name, name <> catalogue_filename ->
                                    files w' !! name = files w !! name) (fst run)).
Proof.
  intros Hfresh.
  assert (forall es,
            last_world w (catalogue_world w catalogue_filename []
                            :: catalogue_worlds w catalogue_filename [] es)
            = catalogue_world w catalogue_filename es) as Hlast.
  { intros es. pose proof (last_world_catalogue_worlds w catalogue_filename [] es) as H.
    cbn [app] in H. rewrite <- H. unfold last_world. rewrite last_cons.
    destruct (last (catalogue_worlds w catalogue_filename [] es)); reflexivity. }
  assert (forall items es,
            Forall (fun w' => displayed w' = displayed w /\
                              forall name, name <> catalogue_filename ->
                                           files w' !! name = files w !! name)
                   (catalogue_worlds w catalogue_filename items es)) as Hworlds.
  { intros items es. revert items. induction es as [|e es IH]; intros items; [constructor | ].
    constructor; [ | apply IH]. split; [reflexivity | ].
    intros name Hname. unfold catalogue_world. cbn [files].
    apply lookup_insert_ne. congruence. }
  assert (forall es,
            Forall (fun w' => displayed w' = displayed w /\
                              forall name, name <> catalogue_filename ->
                                           files w' !! name = files w !! name)
                   (catalogue_world w catalogue_filename []
                      :: catalogue_worlds w catalogue_filename [] es)) as Hall.
  { intros es. constructor; [ | apply Hworlds]. split; [reflexivity | ].
    intros name Hname. unfold catalogue_world. cbn [files].
    apply lookup_insert_ne. congruence. }
  split.
  - intros good bad rest anchors objs e Hobjs Hnd Hbad. cbv zeta.
    rewrite (script_steps_refused_screw good bad rest anchors env_name catalogue_filename
               random_coords w objs e Hfresh Hobjs Hnd (new_screw_raise _ _ Hbad)).
    cbn [fst snd]. split; [reflexivity | split; [apply Hlast | split; [ | apply Hall]]].
    apply entries_of_rows. rewrite (mapM_length _ _ _ Hobjs). apply length_fmap.
  - intros screws good bad rest ss objs e Hss Hobjs Hnd Hbad. cbv zeta.
    rewrite (script_steps_refused_anchor screws good bad rest env_name catalogue_filename
               random_coords w ss objs e Hfresh Hss Hobjs Hnd (new_anchor_raise _ _ Hbad)).
    cbn [fst snd]. split; [reflexivity | split; [apply Hlast | split; [ | apply Hall]]].
    rewrite fmap_app. f_equal; apply entries_of_rows.
    + rewrite (mapM_length _ _ _ Hss). apply length_fmap.
    + rewrite (mapM_length _ _ _ Hobjs). apply length_fmap.
Qed.

Lemma refused_row_leaves_catalogue_witness :
  exists e1 e2,
    script_steps
      (screws ++ [ {| row_id := "screw_0"; obj_params := with_neck_length (-1);
                      row_criteria := [] |} ])
      anchors "cmdline" "/tmp/tmpk3x9qd" (CoordSystem_at (vec 0 0 0))
      {| files := ∅; displayed := [] |}
    = ([ {| files := {[ "/tmp/tmpk3x9qd" := CatalogueFile [] ]}; displayed := [] |};
         {| files := {[ "/tmp/tmpk3x9qd" := CatalogueFile [e1] ]}; displayed := [] |};
         {| files := {[ "/tmp/tmpk3x9qd" := CatalogueFile [e1; e2] ]}; displayed := [] |} ],
       Some ParameterError) /\
    id <$> [e1; e2] = ["screw_30"; "screw_50"].
Proof.
  destruct (refused_row_leaves_catalogue "cmdline" "/tmp/tmpk3x9qd" (CoordSystem_at (vec 0 0 0))
              {| files := ∅; displayed := [] |} (lookup_empty _)) as [Hscrew _].
  destruct (Hscrew screws
              {| row_id := "screw_0"; obj_params := with_neck_length (-1); row_criteria := [] |}
              [] anchors _ ParameterError eq_refl) as (_ & _ & Hid & _).
  - cbn.
    repeat (apply NoDup_cons; split;
            [intros H; apply list_elem_of_In in H; simpl in H; intuition discriminate | ]).
    apply NoDup_nil_2.
  - reflexivity.
  - eexists _, _. split; [reflexivity | exact Hid].
Defined.
